(** * The in-memory versioned document store (server/storage.ts)

    A shallow embedding of [MemStorage]: the four insertion-ordered JS [Map]s
    (users, documents, document versions, activities) and the methods of
    [IStorage] working on them.

    Conventions of the embedding:
    - a JS [Map<string, V>] is an association list with unique keys, in
      insertion order ([Array.from(map.values())] enumerates in that order;
      [set] on a present key keeps the key's position);
    - a [Date] is its [getTime()] value, an integer of [Z];
    - [number]s that hold integers ([version], [limit]) are in [Z];
    - an optional key of an insert object is a [Field]: [Omitted] when the key
      is absent, [Given v] when it is present; a nullable column is an
      [option] ([None] is [null]);
    - the values a method activation obtains from [randomUUID()] and
      [new Date()] are passed in as a [Runtime] record, one per activation;
    - [async] methods are run to completion: the store is single-threaded and
      no method yields between its steps. *)

From Stdlib Require Import List String Ascii ZArith QArith Lia Bool Permutation Sorted.
Import ListNotations.

Local Open Scope string_scope.
Local Open Scope list_scope.
Local Open Scope Z_scope.

(** ** JavaScript helpers *)

(** An insertion-ordered [Map] with string keys. *)
Module JsMap.

Definition t (V : Type) : Type := list (string * V).

Section Ops.
Context {V : Type}.

Definition empty : t V := [].

Fixpoint get (k : string) (m : t V) : option V :=
  match m with
  | [] => None
  | (k', v) :: m' => if String.eqb k k' then Some v else get k m'
  end.

(** [map.set(k, v)]: overwrite in place, or append a new entry. *)
Fixpoint set (k : string) (v : V) (m : t V) : t V :=
  match m with
  | [] => [(k, v)]
  | (k', v') :: m' =>
      if String.eqb k k' then (k, v) :: m' else (k', v') :: set k v m'
  end.

Definition delete (k : string) (m : t V) : t V :=
  filter (fun e => negb (String.eqb k (fst e))) m.

Definition keys (m : t V) : list string := map fst m.
Definition values (m : t V) : list V := map snd m.
Definition entries (m : t V) : list (string * V) := m.

(** [for (const [k, v] of l) if (p(v)) m.delete(k)]: walk the snapshot
    [l] and delete from the live map [m] the key of each entry that
    satisfies [p]. *)
Definition delete_loop (p : V -> bool) (l : list (string * V)) (m : t V)
  : t V :=
  fold_left (fun m e => if p (snd e) then delete (fst e) m else m) l m.

(** Keys of a [Map] are pairwise distinct. *)
Definition wf (m : t V) : Prop := NoDup (keys m).
End Ops.

End JsMap.

(** The one-character string holding a double quote. *)
Definition dquote : string := String (ascii_of_nat 34) EmptyString.

(** An optional key of an object literal. *)
Inductive Field (A : Type) : Type :=
| Omitted : Field A
| Given : A -> Field A.
Arguments Omitted {A}.
Arguments Given {A} _.

(** [{...base, ...{key: f}}] for one key. *)
Definition spread {A : Type} (base : A) (f : Field A) : A :=
  match f with
  | Omitted => base
  | Given v => v
  end.

(** [x || null] for [x : string | null | undefined]. *)
Definition or_null (f : Field (option string)) : option string :=
  match f with
  | Given (Some s) => if String.eqb s EmptyString then None else Some s
  | _ => None
  end.

(** [x || []] for [x : string[] | null | undefined]; every array is truthy. *)
Definition or_empty (f : Field (option (list string))) : option (list string) :=
  match f with
  | Given (Some l) => Some l
  | _ => Some []
  end.

(** [x || d] for [x : string | undefined]. *)
Definition or_default (f : Field string) (d : string) : string :=
  match f with
  | Given s => if String.eqb s EmptyString then d else s
  | Omitted => d
  end.

(** [Array.prototype.sort(cmp)]: the sort is stable, and for a comparator that
    is a consistent total preorder its result is the unique stable ordering,
    computed here by insertion from the right. [cmp a b <= 0] keeps [a]
    before [b]. *)
Section Sort.
Context {A : Type} (cmp : A -> A -> Z).

Fixpoint sort_insert (x : A) (l : list A) : list A :=
  match l with
  | [] => [x]
  | y :: l' => if cmp x y <=? 0 then x :: l else y :: sort_insert x l'
  end.

Definition sort (l : list A) : list A := fold_right sort_insert [] l.
End Sort.

(** The comparator [(a, b) => key(b) - key(a)], and the order it sorts
    into: [key] descending. *)
Definition by_desc {A : Type} (key : A -> Z) (a b : A) : Z := key b - key a.
Definition desc {A : Type} (key : A -> Z) (a b : A) : Prop := key b <= key a.

(** [Array.prototype.slice(start, end)] on integer arguments: a negative index
    counts from the end of the array, and both are clamped to [0..length]. *)
Definition slice_index (len i : Z) : Z :=
  if i <? 0 then Z.max (len + i) 0 else Z.min i len.

Definition slice {A : Type} (start end_ : Z) (l : list A) : list A :=
  let len := Z.of_nat (List.length l) in
  let k := slice_index len start in
  let final := slice_index len end_ in
  firstn (Z.to_nat (Z.max (final - k) 0)) (skipn (Z.to_nat k) l).

(** [for (const x of l) { const y = f(x); if (y) result.push(y) }], starting
    from an empty [result]. *)
Definition collect {A B : Type} (f : A -> option B) (l : list A) : list B :=
  fold_left
    (fun result x =>
       match f x with
       | Some y => result ++ [y]
       | None => result
       end)
    l [].

(** [s.includes(q)]: [q] occurs in [s] as a contiguous substring. *)
Fixpoint includes (s q : string) : bool :=
  String.prefix q s ||
  match s with
  | EmptyString => false
  | String _ s' => includes s' q
  end.

(** ** Data model (shared/schema.ts) *)

Record User := {
  user_id : string;
  user_email : string;
  user_password : string;
  user_name : string;
  user_role : string;
  user_createdAt : Z;
  user_updatedAt : Z
}.

Record InsertUser := {
  iu_email : string;
  iu_password : string;
  iu_name : string;
  iu_role : Field string
}.

Record Document := {
  doc_id : string;
  doc_title : string;
  doc_content : string;
  doc_summary : option string;
  doc_tags : option (list string);
  doc_createdBy : string;
  doc_createdAt : Z;
  doc_updatedAt : Z;
  doc_version : Z
}.

(** [InsertDocument]: the document columns without id, createdBy, createdAt,
    updatedAt and version. *)
Record InsertDocument := {
  ins_title : string;
  ins_content : string;
  ins_summary : Field (option string);
  ins_tags : Field (option (list string))
}.

(** [Partial<InsertDocument>]. *)
Record PartialInsertDocument := {
  upd_title : Field string;
  upd_content : Field string;
  upd_summary : Field (option string);
  upd_tags : Field (option (list string))
}.

Record DocumentVersion := {
  ver_id : string;
  ver_documentId : string;
  ver_title : string;
  ver_content : string;
  ver_summary : option string;
  ver_tags : option (list string);
  ver_version : Z;
  ver_createdBy : string;
  ver_createdAt : Z;
  ver_changeDescription : option string
}.

Record InsertDocumentVersion := {
  iv_documentId : string;
  iv_title : string;
  iv_content : string;
  iv_summary : Field (option string);
  iv_tags : Field (option (list string));
  iv_version : Z;
  iv_createdBy : string;
  iv_changeDescription : Field (option string)
}.

Record Activity := {
  act_id : string;
  act_type : string;
  act_documentId : option string;
  act_userId : string;
  act_description : string;
  act_createdAt : Z
}.

Record InsertActivity := {
  ia_type : string;
  ia_documentId : Field (option string);
  ia_userId : string;
  ia_description : string
}.

(** [Document & { createdBy: User }]: the document's own fields, and the
    author record that replaces its [createdBy]. *)
Record DocumentWithUser := {
  dwu_document : Document;
  dwu_createdBy : User
}.

Record DocumentWithDetails := {
  dwd_document : Document;
  dwd_createdBy : User;
  dwd_versions : list DocumentVersion
}.

(** [Activity & { user: User; document?: Document }]. *)
Record ActivityWithDetails := {
  awd_activity : Activity;
  awd_user : User;
  awd_document : option Document
}.

(** ** The store *)

Record MemStorage := {
  users : JsMap.t User;
  documents : JsMap.t Document;
  documentVersions : JsMap.t DocumentVersion;
  activities : JsMap.t Activity
}.

(** [new MemStorage()]. *)
Definition newMemStorage : MemStorage :=
  {| users := JsMap.empty; documents := JsMap.empty;
     documentVersions := JsMap.empty; activities := JsMap.empty |}.

(** What one method activation reads from its environment. *)
Record Runtime := {
  randomUUID : string;
  newDate : Z
}.

Definition getUser (s : MemStorage) (id : string) : option User :=
  JsMap.get id (users s).

Definition getUserByEmail (s : MemStorage) (email : string) : option User :=
  find (fun u => String.eqb (user_email u) email) (JsMap.values (users s)).

Definition createUser (rt : Runtime) (insertUser : InsertUser) (s : MemStorage)
  : User * MemStorage :=
  let id := randomUUID rt in
  let now := newDate rt in
  let user :=
    {| user_id := id;
       user_email := iu_email insertUser;
       user_password := iu_password insertUser;
       user_name := iu_name insertUser;
       user_role := or_default (iu_role insertUser) "user";
       user_createdAt := now;
       user_updatedAt := now |} in
  (user,
   {| users := JsMap.set id user (users s);
      documents := documents s;
      documentVersions := documentVersions s;
      activities := activities s |}).

Definition getDocumentVersions (s : MemStorage) (documentId : string)
  : list DocumentVersion :=
  sort (fun a b => ver_version b - ver_version a)
    (filter (fun version => String.eqb (ver_documentId version) documentId)
       (JsMap.values (documentVersions s))).

Definition createDocumentVersion (rt : Runtime)
  (insertVersion : InsertDocumentVersion) (s : MemStorage)
  : DocumentVersion * MemStorage :=
  let id := randomUUID rt in
  let now := newDate rt in
  let version :=
    {| ver_id := id;
       ver_documentId := iv_documentId insertVersion;
       ver_title := iv_title insertVersion;
       ver_content := iv_content insertVersion;
       ver_summary := or_null (iv_summary insertVersion);
       ver_tags := or_empty (iv_tags insertVersion);
       ver_version := iv_version insertVersion;
       ver_createdBy := iv_createdBy insertVersion;
       ver_createdAt := now;
       ver_changeDescription := or_null (iv_changeDescription insertVersion) |} in
  (version,
   {| users := users s;
      documents := documents s;
      documentVersions := JsMap.set id version (documentVersions s);
      activities := activities s |}).

Definition createActivity (rt : Runtime) (insertActivity : InsertActivity)
  (s : MemStorage) : Activity * MemStorage :=
  let id := randomUUID rt in
  let now := newDate rt in
  let activity :=
    {| act_id := id;
       act_type := ia_type insertActivity;
       act_documentId := or_null (ia_documentId insertActivity);
       act_userId := ia_userId insertActivity;
       act_description := ia_description insertActivity;
       act_createdAt := now |} in
  (activity,
   {| users := users s;
      documents := documents s;
      documentVersions := documentVersions s;
      activities := JsMap.set id activity (activities s) |}).

(** The three [Runtime]s are those of [createDocument] itself and of its calls
    to [createDocumentVersion] and [createActivity]. *)
Definition createDocument (rt rtV rtA : Runtime)
  (insertDocument : InsertDocument) (createdBy : string) (s : MemStorage)
  : Document * MemStorage :=
  let id := randomUUID rt in
  let now := newDate rt in
  let document :=
    {| doc_id := id;
       doc_title := ins_title insertDocument;
       doc_content := ins_content insertDocument;
       doc_summary := or_null (ins_summary insertDocument);
       doc_tags := or_empty (ins_tags insertDocument);
       doc_createdBy := createdBy;
       doc_createdAt := now;
       doc_updatedAt := now;
       doc_version := 1 |} in
  let s1 :=
    {| users := users s;
       documents := JsMap.set id document (documents s);
       documentVersions := documentVersions s;
       activities := activities s |} in
  let s2 := snd (createDocumentVersion rtV
    {| iv_documentId := id;
       iv_title := doc_title document;
       iv_content := doc_content document;
       iv_summary := Given (doc_summary document);
       iv_tags := Given (doc_tags document);
       iv_version := 1;
       iv_createdBy := createdBy;
       iv_changeDescription := Given (Some "Initial version") |} s1) in
  let s3 := snd (createActivity rtA
    {| ia_type := "created";
       ia_documentId := Given (Some id);
       ia_userId := createdBy;
       ia_description :=
         ("Created document " ++ dquote ++ doc_title document ++ dquote)%string |} s2) in
  (document, s3).

(** [updateDocument] draws no UUID of its own; [rt] gives its [new Date()]. *)
Definition updateDocument (rt rtV rtA : Runtime) (id : string)
  (updates : PartialInsertDocument) (updatedBy : string) (s : MemStorage)
  : option Document * MemStorage :=
  match JsMap.get id (documents s) with
  | None => (None, s)
  | Some doc =>
      let now := newDate rt in
      let newVersion := doc_version doc + 1 in
      let updatedDocument :=
        {| doc_id := doc_id doc;
           doc_title := spread (doc_title doc) (upd_title updates);
           doc_content := spread (doc_content doc) (upd_content updates);
           doc_summary := spread (doc_summary doc) (upd_summary updates);
           doc_tags := spread (doc_tags doc) (upd_tags updates);
           doc_createdBy := doc_createdBy doc;
           doc_createdAt := doc_createdAt doc;
           doc_updatedAt := now;
           doc_version := newVersion |} in
      let s1 :=
        {| users := users s;
           documents := JsMap.set id updatedDocument (documents s);
           documentVersions := documentVersions s;
           activities := activities s |} in
      let s2 := snd (createDocumentVersion rtV
        {| iv_documentId := id;
           iv_title := doc_title updatedDocument;
           iv_content := doc_content updatedDocument;
           iv_summary := Given (doc_summary updatedDocument);
           iv_tags := Given (doc_tags updatedDocument);
           iv_version := newVersion;
           iv_createdBy := updatedBy;
           iv_changeDescription := Given (Some "Document updated") |} s1) in
      let s3 := snd (createActivity rtA
        {| ia_type := "updated";
           ia_documentId := Given (Some id);
           ia_userId := updatedBy;
           ia_description :=
             ("Updated document " ++ dquote ++ doc_title updatedDocument ++ dquote)%string |}
        s2) in
      (Some updatedDocument, s3)
  end.

(** [activity.documentId === id] for a [string | null] left-hand side. *)
Definition strict_eq (o : option string) (id : string) : bool :=
  match o with
  | Some d => String.eqb d id
  | None => false
  end.

(** Both loops walk a snapshot ([Array.from(map.entries())]) and delete from
    the live map. *)
Definition deleteDocument (id : string) (s : MemStorage) : bool * MemStorage :=
  match JsMap.get id (documents s) with
  | None => (false, s)
  | Some _ =>
      let versions' :=
        JsMap.delete_loop
          (fun version => String.eqb (ver_documentId version) id)
          (JsMap.entries (documentVersions s)) (documentVersions s) in
      let activities' :=
        JsMap.delete_loop
          (fun activity => strict_eq (act_documentId activity) id)
          (JsMap.entries (activities s)) (activities s) in
      (true,
       {| users := users s;
          documents := JsMap.delete id (documents s);
          documentVersions := versions';
          activities := activities' |})
  end.

(** The body of the loop of [getDocuments]: the element pushed for [doc], if
    any. *)
Definition with_author (s : MemStorage) (doc : Document)
  : option DocumentWithUser :=
  match getUser s (doc_createdBy doc) with
  | Some user => Some {| dwu_document := doc; dwu_createdBy := user |}
  | None => None
  end.

(** The comparator is [b.updatedAt.getTime() - a.updatedAt.getTime()]. *)
Definition getDocuments (s : MemStorage) : list DocumentWithUser :=
  let docs := collect (with_author s) (JsMap.values (documents s)) in
  sort (fun a b =>
          doc_updatedAt (dwu_document b) - doc_updatedAt (dwu_document a))
       docs.

Definition getDocument (s : MemStorage) (id : string)
  : option DocumentWithDetails :=
  match JsMap.get id (documents s) with
  | None => None
  | Some doc =>
      match getUser s (doc_createdBy doc) with
      | None => None
      | Some user =>
          let versions := getDocumentVersions s id in
          Some {| dwd_document := doc; dwd_createdBy := user;
                  dwd_versions := versions |}
      end
  end.

(** [String.prototype.toLowerCase] follows the Unicode case mapping; the
    search is stated for any lowering function that keeps the empty string
    empty. *)
Section Search.
Variable toLowerCase : string -> string.

(** The callback of [allDocs.filter], coerced to a boolean as [filter]
    does: [doc.summary && ...] is falsy for a null or empty summary,
    [doc.tags && ...] for null tags. *)
Definition search_hit (lowerQuery : string) (doc : DocumentWithUser) : bool :=
  let d := dwu_document doc in
  includes (toLowerCase (doc_title d)) lowerQuery
  || includes (toLowerCase (doc_content d)) lowerQuery
  || match doc_summary d with
     | Some sm =>
         negb (String.eqb sm EmptyString)
         && includes (toLowerCase sm) lowerQuery
     | None => false
     end
  || match doc_tags d with
     | Some tags =>
         existsb (fun tag => includes (toLowerCase tag) lowerQuery) tags
     | None => false
     end.

Definition searchDocuments (s : MemStorage) (query : string)
  : list DocumentWithUser :=
  let allDocs := getDocuments s in
  let lowerQuery := toLowerCase query in
  filter (search_hit lowerQuery) allDocs.
End Search.

(** Lowering of the ASCII letters, on which [toLowerCase] agrees with the
    Unicode mapping. *)
Definition ascii_lower (c : ascii) : ascii :=
  let n := nat_of_ascii c in
  if ((65 <=? n) && (n <=? 90))%nat then ascii_of_nat (n + 32) else c.

Fixpoint ascii_toLowerCase (s : string) : string :=
  match s with
  | EmptyString => EmptyString
  | String c s' => String (ascii_lower c) (ascii_toLowerCase s')
  end.

(** The body of the loop of [getRecentActivities]: the element pushed for
    [activity], if any. [activity.documentId ? ... : undefined] takes the
    second branch for a null or empty reference. *)
Definition with_details (s : MemStorage) (activity : Activity)
  : option ActivityWithDetails :=
  let user := getUser s (act_userId activity) in
  let document :=
    match act_documentId activity with
    | Some d =>
        if String.eqb d EmptyString then None else JsMap.get d (documents s)
    | None => None
    end in
  match user with
  | Some u =>
      Some {| awd_activity := activity; awd_user := u;
              awd_document := document |}
  | None => None
  end.

(** [limit] is [None] when the argument is left out ([limit = 10]). *)
Definition getRecentActivities (s : MemStorage) (limit : option Z)
  : list ActivityWithDetails :=
  let limit := match limit with Some n => n | None => 10 end in
  let activities :=
    slice 0 limit
      (sort (fun a b => act_createdAt b - act_createdAt a)
         (JsMap.values (activities s))) in
  collect (with_details s) activities.

(** ** Runs of the store *)

(** The state-changing methods of [IStorage], with their arguments and the
    [Runtime] of each activation. *)
Inductive Op : Type :=
| OpCreateUser (rt : Runtime) (insertUser : InsertUser)
| OpCreateDocument (rt rtV rtA : Runtime) (insertDocument : InsertDocument)
    (createdBy : string)
| OpUpdateDocument (rt rtV rtA : Runtime) (id : string)
    (updates : PartialInsertDocument) (updatedBy : string)
| OpDeleteDocument (id : string)
| OpCreateDocumentVersion (rt : Runtime) (insertVersion : InsertDocumentVersion)
| OpCreateActivity (rt : Runtime) (insertActivity : InsertActivity).

Definition exec (o : Op) (s : MemStorage) : MemStorage :=
  match o with
  | OpCreateUser rt u => snd (createUser rt u s)
  | OpCreateDocument rt rtV rtA d by_ => snd (createDocument rt rtV rtA d by_ s)
  | OpUpdateDocument rt rtV rtA id u by_ =>
      snd (updateDocument rt rtV rtA id u by_ s)
  | OpDeleteDocument id => snd (deleteDocument id s)
  | OpCreateDocumentVersion rt v => snd (createDocumentVersion rt v s)
  | OpCreateActivity rt a => snd (createActivity rt a s)
  end.

(** [randomUUID()] does not return an identifier already used as a key of the
    map the method stores it in. *)
Definition unused {V : Type} (k : string) (m : JsMap.t V) : Prop :=
  JsMap.get k m = None.

Definition fresh (o : Op) (s : MemStorage) : Prop :=
  match o with
  | OpCreateUser rt _ => unused (randomUUID rt) (users s)
  | OpCreateDocument rt rtV rtA _ _ =>
      unused (randomUUID rt) (documents s)
      /\ unused (randomUUID rtV) (documentVersions s)
      /\ unused (randomUUID rtA) (activities s)
  | OpUpdateDocument _ rtV rtA _ _ _ =>
      unused (randomUUID rtV) (documentVersions s)
      /\ unused (randomUUID rtA) (activities s)
  | OpDeleteDocument _ => True
  | OpCreateDocumentVersion rt _ => unused (randomUUID rt) (documentVersions s)
  | OpCreateActivity rt _ => unused (randomUUID rt) (activities s)
  end.

(** States reached from [new MemStorage()] by operations taken from
    [allowed], each drawing unused identifiers. *)
Inductive reachable (allowed : Op -> bool) : MemStorage -> Prop :=
| reachable_new : reachable allowed newMemStorage
| reachable_exec : forall s o,
    reachable allowed s -> allowed o = true -> fresh o s ->
    reachable allowed (exec o s).

Definition any_op (o : Op) : bool := true.

Definition create_or_update (o : Op) : bool :=
  match o with
  | OpCreateDocument _ _ _ _ _ | OpUpdateDocument _ _ _ _ _ _ => true
  | _ => false
  end.

Definition not_createActivity (o : Op) : bool :=
  match o with
  | OpCreateActivity _ _ => false
  | _ => true
  end.

(** Running a list of operations, and the assumption on [randomUUID] along
    the run. *)
Definition run (ops : list Op) (s : MemStorage) : MemStorage :=
  fold_left (fun st o => exec o st) ops s.

Fixpoint fresh_run (ops : list Op) (s : MemStorage) : Prop :=
  match ops with
  | [] => True
  | o :: ops' => fresh o s /\ fresh_run ops' (exec o s)
  end.

(** [o] is a call of [updateDocument] on the document [id]. *)
Definition is_update_of (id : string) (o : Op) : Prop :=
  match o with
  | OpUpdateDocument _ _ _ id' _ _ => id' = id
  | _ => False
  end.

Definition wf_store (s : MemStorage) : Prop :=
  JsMap.wf (users s) /\ JsMap.wf (documents s)
  /\ JsMap.wf (documentVersions s) /\ JsMap.wf (activities s).

(** ** A sample run

    User A registers, creates the document "Onboarding", retitles it, and
    saves it once more from the editor form with the summary box left blank
    (the form sends an empty summary string and an empty tag list). *)

Definition at_time (uuid : string) (t : Z) : Runtime :=
  {| randomUUID := uuid; newDate := t |}.

Definition op_register : Op :=
  OpCreateUser (at_time "u1" 1)
    {| iu_email := "a@example.org"; iu_password := "x"; iu_name := "A";
       iu_role := Omitted |}.

Definition op_create : Op :=
  OpCreateDocument (at_time "d1" 2) (at_time "v1" 2) (at_time "a1" 2)
    {| ins_title := "Onboarding"; ins_content := "Welcome...";
       ins_summary := Omitted; ins_tags := Omitted |} "u1".

Definition retitle : PartialInsertDocument :=
  {| upd_title := Given "Onboarding Guide"; upd_content := Omitted;
     upd_summary := Omitted; upd_tags := Omitted |}.

Definition op_retitle : Op :=
  OpUpdateDocument (at_time "-" 5) (at_time "v2" 5) (at_time "a2" 5)
    "d1" retitle "u1".

Definition blank_summary : PartialInsertDocument :=
  {| upd_title := Given "Onboarding Guide"; upd_content := Given "Welcome...";
     upd_summary := Given (Some EmptyString); upd_tags := Given (Some []) |}.

Definition op_blank_summary : Op :=
  OpUpdateDocument (at_time "-" 7) (at_time "v3" 7) (at_time "a3" 7)
    "d1" blank_summary "u1".

Definition null_tags : PartialInsertDocument :=
  {| upd_title := Omitted; upd_content := Omitted;
     upd_summary := Omitted; upd_tags := Given None |}.

Definition sample_registered : MemStorage := exec op_register newMemStorage.
Definition sample_created : MemStorage := exec op_create sample_registered.
Definition sample_retitled : MemStorage := exec op_retitle sample_created.
Definition sample_saved : MemStorage := exec op_blank_summary sample_retitled.

(** A second document, created before the first one is retitled. *)
Definition op_create_second : Op :=
  OpCreateDocument (at_time "d2" 3) (at_time "v9" 3) (at_time "a9" 3)
    {| ins_title := "Release Notes"; ins_content := "Fixes.";
       ins_summary := Given (Some "What changed");
       ins_tags := Given (Some ["beta"]) |} "u1".

Definition sample_two : MemStorage :=
  exec op_retitle (exec op_create_second sample_created).

(** A direct call of [createActivity] that records a deletion. *)
Definition op_log_deleted : Op :=
  OpCreateActivity (at_time "a1" 1)
    {| ia_type := "deleted"; ia_documentId := Omitted; ia_userId := "u1";
       ia_description := "Deleted a document" |}.

Definition sample_logged : MemStorage := exec op_log_deleted newMemStorage.

(** The same save on a store that holds only the freshly created document. *)
Definition sample_resaved : MemStorage :=
  exec op_blank_summary (exec op_create newMemStorage).

(** ** Notions used to state the properties *)

(** The version rows of a document, in the order they were stored. *)
Definition version_rows (s : MemStorage) (documentId : string)
  : list DocumentVersion :=
  filter (fun version => String.eqb (ver_documentId version) documentId)
    (JsMap.values (documentVersions s)).

(** A version row carries the same title, content, summary and tags as a
    document. *)
Definition same_text (row : DocumentVersion) (d : Document) : Prop :=
  ver_title row = doc_title d
  /\ ver_content row = doc_content d
  /\ ver_summary row = doc_summary d
  /\ ver_tags row = doc_tags d.

(** The same, up to what [createDocumentVersion] does to the summary and the
    tags it is given: an empty summary is stored as null, null tags as the
    empty list. *)
Definition same_text_normalised (row : DocumentVersion) (d : Document) : Prop :=
  ver_title row = doc_title d
  /\ ver_content row = doc_content d
  /\ ver_summary row = or_null (Given (doc_summary d))
  /\ ver_tags row = or_empty (Given (doc_tags d)).

(** [1; 2; ...; n] as version numbers. *)
Definition versions_upto (n : nat) : list Z := map Z.of_nat (seq 1 n).

(** [q] occurs in [s]. *)
Definition Substring (q s : string) : Prop :=
  exists a b : string, s = (a ++ q ++ b)%string.

(** The version log agrees with the documents: a stored document of version
    [n] has the rows numbered [1..n], stored in that order, the last of them
    holding the document's text (normalised); an identifier with no document
    has no rows. *)
Definition log_ok (s : MemStorage) : Prop :=
  (forall k d, JsMap.get k (documents s) = Some d ->
     exists n rows row,
       doc_version d = Z.of_nat (S n)
       /\ version_rows s k = rows ++ [row]
       /\ map ver_version (version_rows s k) = versions_upto (S n)
       /\ same_text_normalised row d)
  /\ (forall k, JsMap.get k (documents s) = None -> version_rows s k = []).

(** The sort key of [getDocuments]. *)
Definition updated (x : DocumentWithUser) : Z := doc_updatedAt (dwu_document x).

(** The acting user of an activity is stored. *)
Definition resolvable (s : MemStorage) (a : Activity) : bool :=
  match getUser s (act_userId a) with
  | Some _ => true
  | None => false
  end.

(** What [getRecentActivities s N] is specified to return: of all stored
    activities, [top] holds the [N] most recent (all of them when there are
    fewer), newest first; the result lists the ones of [top] whose user is
    stored, in the same order, each with that user and, when it refers to a
    document, with what the store holds under that reference. *)
Definition recent_activities_spec (s : MemStorage) (N : Z)
  (result : list ActivityWithDetails) : Prop :=
  exists top rest : list Activity,
    Permutation (JsMap.values (activities s)) (top ++ rest)
    /\ List.length top
       = Nat.min (Z.to_nat N) (List.length (JsMap.values (activities s)))
    /\ (forall a b, In a top -> In b rest -> act_createdAt b <= act_createdAt a)
    /\ StronglySorted (desc act_createdAt) top
    /\ map awd_activity result = filter (resolvable s) top
    /\ (forall r, In r result ->
          getUser s (act_userId (awd_activity r)) = Some (awd_user r)
          /\ (forall d, act_documentId (awd_activity r) = Some d ->
                d <> EmptyString ->
                awd_document r = JsMap.get d (documents s))
          /\ (act_documentId (awd_activity r) = None -> awd_document r = None)).

(** Every stored activity is of type "created" or "updated". *)
Definition activity_types_ok (s : MemStorage) : Prop :=
  forall a, In a (JsMap.values (activities s)) ->
    act_type a = "created" \/ act_type a = "updated".

(** The lower-cased query occurs in the lower-cased title, content, summary
    (when there is one) or in some lower-cased tag. *)
Definition matches (toLowerCase : string -> string) (query : string)
  (x : DocumentWithUser) : Prop :=
  let q := toLowerCase query in
  let d := dwu_document x in
  Substring q (toLowerCase (doc_title d))
  \/ Substring q (toLowerCase (doc_content d))
  \/ (exists sm, doc_summary d = Some sm /\ Substring q (toLowerCase sm))
  \/ (exists tags tag,
        doc_tags d = Some tags /\ In tag tags
        /\ Substring q (toLowerCase tag)).

(** ** The HTTP layer (server/services/auth.ts, server/routes.ts)

    A handler is modelled by what it decides: the response it sends (status
    and body) and the store it leaves. [req.body] enters as the outcome of
    the zod [parse] ([None] when it throws a [ZodError]), [req.user] as the
    payload put there by [authenticateToken]. The [catch] branches that
    answer 500 are left out: no method of [MemStorage] throws. *)

(** [s.split(sep)] for a one-character separator. *)
Fixpoint split_on (sep : ascii) (s : string) : list string :=
  match s with
  | EmptyString => [EmptyString]
  | String c s' =>
      if Ascii.eqb c sep then EmptyString :: split_on sep s'
      else match split_on sep s' with
           | w :: ws => String c w :: ws
           | [] => [String c EmptyString]
           end
  end.

(** The payload of a token, [req.user]. *)
Record AuthUser := {
  au_id : string;
  au_email : string;
  au_name : string;
  au_role : string
}.

(** What a middleware does: call [next()] with [req.user] set, or answer. *)
Inductive AuthOutcome : Type :=
| AuthNext (user : AuthUser)
| AuthReject (status : Z) (message : string).

(** [authHeader && authHeader.split(" ")[1]], as an optional token: [None]
    is [undefined]; an empty header gives the (falsy) empty string. *)
Definition bearer_token (authorization : option string) : option string :=
  match authorization with
  | None => None
  | Some authHeader =>
      if String.eqb authHeader EmptyString then Some EmptyString
      else nth_error (split_on " "%char authHeader) 1
  end.

(** [verifyToken] is [jwt.verify]: [None] when it throws. *)
Definition authenticateToken (verifyToken : string -> option AuthUser)
  (authorization : option string) : AuthOutcome :=
  match bearer_token authorization with
  | None => AuthReject 401 "Access token required"
  | Some token =>
      if String.eqb token EmptyString
      then AuthReject 401 "Access token required"
      else match verifyToken token with
           | Some user => AuthNext user
           | None => AuthReject 403 "Invalid or expired token"
           end
  end.

Definition requireAdmin (user : option AuthUser) : AuthOutcome :=
  match user with
  | None => AuthReject 403 "Admin access required"
  | Some u =>
      if negb (String.eqb (au_role u) "admin")
      then AuthReject 403 "Admin access required"
      else AuthNext u
  end.

(** The JSON bodies the handlers below send. *)
Inductive Body : Type :=
| Message (message : string)
| InvalidInput
| Session (token : string) (user : AuthUser)
| Created (document : Document)
| Updated (document : option Document).

Record Response := {
  res_status : Z;
  res_body : Body
}.

(** [res.json(body)] answers 200. *)
Definition json (body : Body) : Response :=
  {| res_status := 200; res_body := body |}.

Definition status_json (status : Z) (body : Body) : Response :=
  {| res_status := status; res_body := body |}.


Section Routes.
Variable hashPassword : string -> string.
Variable comparePassword : string -> string -> bool.
Variable generateToken : AuthUser -> string.


End Routes.

(** [POST /api/documents]. *)
Definition post_document (rt rtV rtA : Runtime) (user : AuthUser)
  (parsed : option InsertDocument) (s : MemStorage) : Response * MemStorage :=
  match parsed with
  | None => (status_json 400 InvalidInput, s)
  | Some data =>
      let '(document, s') := createDocument rt rtV rtA data (au_id user) s in
      (json (Created document), s')
  end.

(** [PUT /api/documents/:id]. *)
Definition put_document (rt rtV rtA : Runtime) (user : AuthUser) (id : string)
  (parsed : option PartialInsertDocument) (s : MemStorage)
  : Response * MemStorage :=
  match getDocument s id with
  | None => (status_json 404 (Message "Document not found"), s)
  | Some document =>
      if negb (String.eqb (user_id (dwd_createdBy document)) (au_id user))
         && negb (String.eqb (au_role user) "admin")
      then (status_json 403 (Message "Permission denied"), s)
      else
        match parsed with
        | None => (status_json 400 InvalidInput, s)
        | Some data =>
            let '(updatedDocument, s') :=
              updateDocument rt rtV rtA id data (au_id user) s in
            (json (Updated updatedDocument), s')
        end
  end.

(** [DELETE /api/documents/:id]. *)
Definition delete_document (user : AuthUser) (id : string) (s : MemStorage)
  : Response * MemStorage :=
  match getDocument s id with
  | None => (status_json 404 (Message "Document not found"), s)
  | Some document =>
      if negb (String.eqb (user_id (dwd_createdBy document)) (au_id user))
         && negb (String.eqb (au_role user) "admin")
      then (status_json 403 (Message "Permission denied"), s)
      else
        let '(success, s') := deleteDocument id s in
        if success
        then (json (Message "Document deleted successfully"), s')
        else (status_json 500 (Message "Failed to delete document"), s')
  end.

(** ** Semantic search (server/services/gemini.ts)

    What the model answers is outside the program: [AiFailed] stands for
    every path into the [catch] (the call or [JSON.parse] throws),
    [AiEmpty] for an empty [response.text], [AiScores] for a parsed array of
    [{index, relevance}] objects. JSON numbers are rationals. *)

Record Score := {
  sc_index : Q;
  sc_relevance : Q
}.

Inductive AiReply : Type :=
| AiFailed
| AiEmpty
| AiScores (results : list Score).

(** An element of the array [performSemanticSearch] returns: the fields of a
    document, when there are any, and the relevance, when there is one. *)
Record SearchResult := {
  sr_document : option DocumentWithUser;
  sr_relevance : option Q
}.

(** The sign of a number, all that [sort] reads of a comparator's result. *)
Definition Qsign (q : Q) : Z := Z.sgn (Qnum q).

(** [documents[i]] for a number [i]: [undefined] unless [i] is an integer
    within the array. *)
Definition array_get {A : Type} (l : list A) (i : Q) : option A :=
  let r := Qred i in
  if (Z.pos (Qden r) =? 1) && (0 <=? Qnum r)
  then nth_error l (Z.to_nat (Qnum r))
  else None.

(** The callback of the fallback filter: title, content and summary, but not
    the tags. *)
Definition fallback_hit (toLowerCase : string -> string) (lowerQuery : string)
  (doc : DocumentWithUser) : bool :=
  let d := dwu_document doc in
  includes (toLowerCase (doc_title d)) lowerQuery
  || includes (toLowerCase (doc_content d)) lowerQuery
  || match doc_summary d with
     | Some sm =>
         negb (String.eqb sm EmptyString)
         && includes (toLowerCase sm) lowerQuery
     | None => false
     end.

Definition performSemanticSearch (toLowerCase : string -> string)
  (reply : AiReply) (query : string) (documents : list DocumentWithUser)
  : list SearchResult :=
  match reply with
  | AiScores results =>
      let relevantResults :=
        sort (fun a b => Qsign (sc_relevance b - sc_relevance a))
          (filter (fun result => negb (Qle_bool (sc_relevance result) 30))
             results) in
      map (fun result =>
             {| sr_document := array_get documents (sc_index result);
                sr_relevance := Some (sc_relevance result) |})
          relevantResults
  | AiEmpty => []
  | AiFailed =>
      let lowerQuery := toLowerCase query in
      map (fun doc => {| sr_document := Some doc; sr_relevance := None |})
        (filter (fallback_hit toLowerCase lowerQuery) documents)
  end.

(** ** Further notions used to state the properties *)

(** The [id] field of every stored record is the key it is stored under. *)
Definition ids_ok (s : MemStorage) : Prop :=
  (forall k u, In (k, u) (users s) -> user_id u = k)
  /\ (forall k d, In (k, d) (documents s) -> doc_id d = k)
  /\ (forall k v, In (k, v) (documentVersions s) -> ver_id v = k)
  /\ (forall k a, In (k, a) (activities s) -> act_id a = k).

(** No version row and no activity refers to a document that is not
    stored. *)
Definition no_orphans (s : MemStorage) : Prop :=
  (forall v, In v (JsMap.values (documentVersions s)) ->
     JsMap.get (ver_documentId v) (documents s) <> None)
  /\ (forall a d, In a (JsMap.values (activities s)) ->
        act_documentId a = Some d -> JsMap.get d (documents s) <> None).

(** The operations that go through a document: everything but the direct
    calls of [createDocumentVersion] and [createActivity]. *)
Definition document_op (o : Op) : bool :=
  match o with
  | OpCreateDocumentVersion _ _ | OpCreateActivity _ _ => false
  | _ => true
  end.


(** A user who is neither the author of the document nor an admin. *)
Definition outsider (s : MemStorage) (id : string) (user : AuthUser) : Prop :=
  au_role user <> "admin"
  /\ forall d author,
       JsMap.get id (documents s) = Some d ->
       getUser s (doc_createdBy d) = Some author ->
       user_id author <> au_id user.

(** An update that names no field. *)
Definition no_changes : PartialInsertDocument :=
  {| upd_title := Omitted; upd_content := Omitted;
     upd_summary := Omitted; upd_tags := Omitted |}.

(** [s] holds no space. *)
Definition no_space (s : string) : Prop :=
  ~ In " "%char (list_ascii_of_string s).

(** A registered account and a caller who is not its owner, for the sample
    runs. *)
Definition owner : AuthUser :=
  {| au_id := "u1"; au_email := "a@example.org"; au_name := "A";
     au_role := "user" |}.

Definition stranger : AuthUser :=
  {| au_id := "u7"; au_email := "s@example.org"; au_name := "S";
     au_role := "user" |}.

Definition admin : AuthUser :=
  {| au_id := "u8"; au_email := "root@example.org"; au_name := "R";
     au_role := "admin" |}.

(** * Properties *)

(** ** Facts about [JsMap] *)
Module JsMapFacts.
Import JsMap.

Section Facts.
Context {V : Type}.
Implicit Types (m : JsMap.t V) (k : string) (v : V).

Lemma get_set_eq m k v : get k (set k v m) = Some v.
Proof.
  induction m as [|[k' v'] m IH]; simpl.
  - now rewrite String.eqb_refl.
  - destruct (String.eqb k k') eqn:E; simpl.
    + now rewrite String.eqb_refl.
    + now rewrite E.
Qed.

Lemma get_set_ne m k k' v : k <> k' -> get k' (set k v m) = get k' m.
Proof.
  intros Hne. induction m as [|[k0 v0] m IH]; simpl.
  - apply not_eq_sym, String.eqb_neq in Hne. now rewrite Hne.
  - destruct (String.eqb k k0) eqn:E; simpl.
    + apply String.eqb_eq in E. subst k0.
      apply not_eq_sym, String.eqb_neq in Hne. now rewrite Hne.
    + now rewrite IH.
Qed.

Lemma get_None_keys m k : get k m = None <-> ~ In k (keys m).
Proof.
  induction m as [|[k' v'] m IH]; simpl.
  - tauto.
  - destruct (String.eqb k k') eqn:E.
    + apply String.eqb_eq in E. subst. split; [discriminate | tauto].
    + apply String.eqb_neq in E. rewrite IH. split.
      * intros H [H1 | H1]; [congruence | tauto].
      * tauto.
Qed.

Lemma get_Some_In m k v : get k m = Some v -> In (k, v) m.
Proof.
  induction m as [|[k' v'] m IH]; simpl; [discriminate |].
  destruct (String.eqb k k') eqn:E.
  - apply String.eqb_eq in E. subst. intros [= ->]. now left.
  - intros H. right. now apply IH.
Qed.

Lemma In_get m k v : wf m -> In (k, v) m -> get k m = Some v.
Proof.
  unfold wf. induction m as [|[k' v'] m IH]; simpl; [tauto |].
  intros Hnd [Heq | Hin]; inversion Hnd as [|? ? Hnotin Hnd']; subst.
  - injection Heq as -> ->. now rewrite String.eqb_refl.
  - destruct (String.eqb k k') eqn:E.
    + apply String.eqb_eq in E. subst k'. exfalso. apply Hnotin.
      unfold keys. change k with (fst (k, v)). now apply in_map.
    + now apply IH.
Qed.

(** Storing under an unused key appends at the end. *)
Lemma set_unused m k v : get k m = None -> set k v m = m ++ [(k, v)].
Proof.
  induction m as [|[k' v'] m IH]; simpl; [reflexivity |].
  destruct (String.eqb k k'); [discriminate |].
  intros H. now rewrite IH.
Qed.

Lemma keys_set_present m k v :
  get k m <> None -> keys (set k v m) = keys m.
Proof.
  induction m as [|[k' v'] m IH]; simpl; [congruence |].
  destruct (String.eqb k k') eqn:E; simpl.
  - apply String.eqb_eq in E. now subst.
  - intros H. now rewrite IH.
Qed.

Lemma wf_set m k v : wf m -> wf (set k v m).
Proof.
  intros Hwf. destruct (get k m) eqn:E.
  - unfold wf. rewrite keys_set_present; [assumption | congruence].
  - rewrite set_unused by assumption. unfold wf, keys in *.
    rewrite map_app. simpl. apply NoDup_app; auto.
    + repeat constructor. simpl. tauto.
    + intros x Hx [<- | []]. now apply get_None_keys in E.
Qed.

Lemma wf_filter (p : string * V -> bool) m : wf m -> wf (filter p m).
Proof.
  unfold wf, keys. induction m as [|e m IH]; simpl; [auto |].
  intros Hnd. inversion Hnd as [|? ? Hnotin Hnd']; subst.
  destruct (p e); simpl; [constructor |]; auto.
  intros Hin. apply Hnotin. apply in_map_iff in Hin.
  destruct Hin as [e' [He' Hin]]. apply filter_In in Hin.
  apply in_map_iff. exists e'. tauto.
Qed.

Lemma wf_delete m k : wf m -> wf (delete k m).
Proof. apply wf_filter. Qed.

Lemma get_delete_eq m k : get k (delete k m) = None.
Proof.
  unfold delete. induction m as [|[k' v'] m IH]; simpl; [reflexivity |].
  destruct (String.eqb k k') eqn:E; simpl; [assumption |].
  now rewrite E.
Qed.

Lemma get_delete_ne m k k' : k <> k' -> get k' (delete k m) = get k' m.
Proof.
  intros Hne. unfold delete.
  induction m as [|[k0 v0] m IH]; simpl; [reflexivity |].
  destruct (String.eqb k k0) eqn:E; simpl.
  - apply String.eqb_eq in E. subst k0.
    apply not_eq_sym, String.eqb_neq in Hne. now rewrite Hne.
  - now rewrite IH.
Qed.

(** Deleting an absent key changes nothing. *)
Lemma delete_unused m k : get k m = None -> delete k m = m.
Proof.
  unfold delete. induction m as [|[k' v'] m IH]; simpl; [reflexivity |].
  destruct (String.eqb k k'); simpl; [discriminate |].
  intros H. now rewrite IH.
Qed.

Lemma delete_loop_filter (p : V -> bool) l m :
  delete_loop p l m =
  filter (fun e => negb (existsb
            (fun e' => p (snd e') && String.eqb (fst e') (fst e)) l)) m.
Proof.
  unfold delete_loop. revert m.
  induction l as [|[k v] l IH]; intros m; simpl.
  - induction m as [|e m IHm]; simpl; [reflexivity |]. now rewrite <- IHm.
  - rewrite IH. destruct (p v); simpl.
    + unfold delete.
      induction m as [|e m IHm]; simpl; [reflexivity |].
      destruct (String.eqb k (fst e)); simpl.
      * assumption.
      * destruct (negb _); [f_equal |]; assumption.
    + reflexivity.
Qed.

(** On a well-formed map the loop removes exactly the entries that satisfy
    [p] and keeps the others in place. *)
Lemma delete_loop_wf (p : V -> bool) m :
  wf m ->
  delete_loop p (entries m) m = filter (fun e => negb (p (snd e))) m.
Proof.
  intros Hwf. rewrite delete_loop_filter. unfold entries.
  apply filter_ext_in. intros [k v] Hin. f_equal. simpl.
  destruct (p v) eqn:Hp.
  - apply existsb_exists. exists (k, v). simpl.
    now rewrite Hp, String.eqb_refl.
  - apply not_true_is_false. intros Hex. apply existsb_exists in Hex.
    destruct Hex as [[k' v'] [Hin' Hc]]. simpl in Hc.
    apply andb_true_iff in Hc. destruct Hc as [Hp' Hk].
    apply String.eqb_eq in Hk. subst k'.
    apply (In_get _ _ _ Hwf) in Hin. apply (In_get _ _ _ Hwf) in Hin'.
    congruence.
Qed.

(** Without any assumption, no entry satisfying [p] survives the loop. *)
Lemma delete_loop_none (p : V -> bool) m e :
  In e (delete_loop p (entries m) m) -> p (snd e) = false.
Proof.
  rewrite delete_loop_filter. intros Hin. apply filter_In in Hin.
  destruct Hin as [Hin Hno]. destruct (p (snd e)) eqn:Hp; [| reflexivity].
  apply negb_true_iff in Hno.
  assert (Hex : existsb
    (fun e' => p (snd e') && String.eqb (fst e') (fst e)) (entries m) = true).
  { apply existsb_exists. exists e. now rewrite Hp, String.eqb_refl. }
  congruence.
Qed.
End Facts.
End JsMapFacts.

(** ** Facts about the array helpers *)
Section CollectFacts.
Context {A B : Type} (f : A -> option B).

Lemma collect_from (l : list A) (acc : list B) :
  fold_left
    (fun result x =>
       match f x with Some y => result ++ [y] | None => result end) l acc
  = acc ++ collect f l.
Proof.
  unfold collect. revert acc.
  induction l as [|x l IH]; intros acc; simpl.
  - now rewrite app_nil_r.
  - rewrite IH. rewrite (IH (match f x with Some y => [y] | None => [] end)).
    destruct (f x); simpl.
    + now rewrite <- app_assoc.
    + reflexivity.
Qed.

Lemma collect_cons (x : A) (l : list A) :
  collect f (x :: l) =
  match f x with Some y => y :: collect f l | None => collect f l end.
Proof.
  unfold collect at 1. simpl. rewrite collect_from. now destruct (f x).
Qed.

Lemma collect_nil : collect f [] = [].
Proof. reflexivity. Qed.

Lemma collect_app (l1 l2 : list A) :
  collect f (l1 ++ l2) = collect f l1 ++ collect f l2.
Proof.
  induction l1 as [|x l1 IH]; [reflexivity |].
  simpl. rewrite !collect_cons, IH. now destruct (f x).
Qed.

Lemma in_collect (y : B) (l : list A) :
  In y (collect f l) <-> exists x, In x l /\ f x = Some y.
Proof.
  induction l as [|x l IH].
  - simpl. split; [tauto | intros [? [[] _]]].
  - rewrite collect_cons. destruct (f x) eqn:E; simpl; rewrite IH.
    + split.
      * intros [<- | [x' [Hin Hf]]]; eauto.
      * intros [x' [[<- | Hin] Hf]]; [left; congruence | eauto].
    + split.
      * intros [x' [Hin Hf]]; eauto.
      * intros [x' [[<- | Hin] Hf]]; [congruence | eauto].
Qed.
End CollectFacts.

Section SortFacts.
Context {A : Type}.

Lemma sort_insert_perm (cmp : A -> A -> Z) (x : A) (l : list A) :
  Permutation (sort_insert cmp x l) (x :: l).
Proof.
  induction l as [|y l IH]; simpl; [reflexivity |].
  destruct (cmp x y <=? 0); [reflexivity |].
  rewrite IH. apply perm_swap.
Qed.

Lemma sort_perm (cmp : A -> A -> Z) (l : list A) :
  Permutation (sort cmp l) l.
Proof.
  induction l as [|x l IH]; simpl; [reflexivity |].
  rewrite sort_insert_perm. now constructor.
Qed.

Lemma sort_In (cmp : A -> A -> Z) (l : list A) (x : A) :
  In x (sort cmp l) <-> In x l.
Proof.
  split; apply Permutation_in;
    [apply sort_perm | apply Permutation_sym, sort_perm].
Qed.

Lemma sort_length (cmp : A -> A -> Z) (l : list A) :
  List.length (sort cmp l) = List.length l.
Proof. apply Permutation_length, sort_perm. Qed.

(** Comparators of the form [(a, b) => key(b) - key(a)]: descending
    [key]. *)
Variable key : A -> Z.

Local Abbreviation by_desc := (by_desc key).
Local Abbreviation desc := (desc key).

Lemma sort_insert_sorted (x : A) (l : list A) :
  StronglySorted desc l -> StronglySorted desc (sort_insert by_desc x l).
Proof.
  induction 1 as [|y l Hs IH Hall]; simpl.
  - repeat constructor.
  - unfold by_desc at 1. destruct (key y - key x <=? 0) eqn:E.
    + apply Z.leb_le in E. constructor; [now constructor |].
      constructor; [unfold desc; lia |].
      eapply Forall_impl; [| exact Hall]. unfold desc. intros; lia.
    + apply Z.leb_gt in E. constructor; [assumption |].
      rewrite Forall_forall in *. intros z Hz.
      apply (Permutation_in _ (sort_insert_perm by_desc x l)) in Hz.
      destruct Hz as [<- | Hz]; [unfold desc; lia | auto].
Qed.

Lemma sort_sorted (l : list A) : StronglySorted desc (sort by_desc l).
Proof.
  induction l as [|x l IH]; simpl; [constructor |].
  now apply sort_insert_sorted.
Qed.

(** An element with a key above all others comes out first. *)
Lemma sort_snoc_max (l : list A) (x : A) :
  (forall y, In y l -> key y < key x) ->
  sort by_desc (l ++ [x]) = x :: sort by_desc l.
Proof.
  unfold sort. induction l as [|y l IH]; intros Hmax; simpl.
  - reflexivity.
  - rewrite IH by (intros; apply Hmax; now right). simpl.
    unfold by_desc at 1.
    assert (key y < key x) by (apply Hmax; now left).
    destruct (key x - key y <=? 0) eqn:E; [apply Z.leb_le in E; lia |].
    reflexivity.
Qed.

(** In a sorted list every element of a prefix is at least as large as
    every element after it. *)
Lemma sorted_app_desc (l1 l2 : list A) :
  StronglySorted desc (l1 ++ l2) ->
  forall a b, In a l1 -> In b l2 -> desc a b.
Proof.
  induction l1 as [|x l1 IH]; simpl; intros Hs a b Ha Hb; [tauto |].
  inversion Hs as [|? ? Hs' Hall]; subst.
  destruct Ha as [<- | Ha].
  - rewrite Forall_forall in Hall. apply Hall. apply in_or_app. now right.
  - now apply IH.
Qed.

Lemma sorted_app_l (l1 l2 : list A) :
  StronglySorted desc (l1 ++ l2) -> StronglySorted desc l1.
Proof.
  induction l1 as [|x l1 IH]; simpl; intros Hs; [constructor |].
  inversion Hs as [|? ? Hs' Hall]; subst. constructor; [auto |].
  rewrite Forall_forall in *. intros y Hy. apply Hall, in_or_app. now left.
Qed.
End SortFacts.

Section SliceFacts.
Context {A : Type}.

(** [slice(0, n)] with [0 <= n] keeps the first [n] elements. *)
Lemma slice_0_nonneg (n : Z) (l : list A) :
  0 <= n -> slice 0 n l = firstn (Z.to_nat n) l.
Proof.
  intros Hn. unfold slice, slice_index.
  replace (0 <? 0) with false by reflexivity.
  destruct (n <? 0) eqn:E; [apply Z.ltb_lt in E; lia |].
  rewrite (Z.min_l 0) by lia. rewrite Z.sub_0_r. simpl skipn.
  destruct (Z.le_gt_cases n (Z.of_nat (List.length l))) as [H | H].
  - rewrite Z.min_l, Z.max_l by lia. reflexivity.
  - rewrite Z.min_r, Z.max_l by lia. rewrite Nat2Z.id.
    rewrite firstn_all. symmetry. apply firstn_all2. lia.
Qed.
End SliceFacts.

(** ** Facts about the store's methods *)

Lemma or_null_idem (f : Field (option string)) :
  or_null (Given (or_null f)) = or_null f.
Proof.
  destruct f as [|[sm|]]; simpl; try reflexivity.
  destruct (String.eqb sm EmptyString) eqn:E; simpl; [reflexivity |].
  now rewrite E.
Qed.

Lemma or_empty_idem (f : Field (option (list string))) :
  or_empty (Given (or_empty f)) = or_empty f.
Proof. now destruct f as [|[l|]]. Qed.

Lemma or_null_nonempty (k : string) :
  k <> EmptyString -> or_null (Given (Some k)) = Some k.
Proof. intros H. simpl. apply String.eqb_neq in H. now rewrite H. Qed.

Arguments or_null : simpl never.
Arguments or_empty : simpl never.

Lemma filter_none {A : Type} (p : A -> bool) (l : list A) :
  (forall x, In x l -> p x = false) -> filter p l = [].
Proof.
  induction l as [|x l IH]; simpl; intros H; [reflexivity |].
  rewrite (H x) by now left. apply IH. intros; apply H; now right.
Qed.

Lemma in_values_entry {V : Type} (m : JsMap.t V) (v : V) :
  In v (JsMap.values m) <-> exists k, In (k, v) m.
Proof.
  unfold JsMap.values. rewrite in_map_iff. split.
  - intros [[k v'] [Heq Hin]]. simpl in Heq. subst. eauto.
  - intros [k Hin]. exists (k, v). auto.
Qed.

(** ** The specified behaviour of the store *)

(** C7. [updateDocument] on an identifier that is not stored returns the
    absent sentinel ([undefined], here [None]) and leaves the whole store as
    it was: no document changes, no version row and no activity is added. *)
Theorem updateDocument_absent :
  forall rt rtV rtA id updates updatedBy s,
    JsMap.get id (documents s) = None ->
    updateDocument rt rtV rtA id updates updatedBy s = (None, s).
Proof.
  intros rt rtV rtA id updates updatedBy s Hget.
  unfold updateDocument. now rewrite Hget.
Qed.

Lemma updateDocument_absent_witness :
  JsMap.get "d2" (documents sample_created) = None
  /\ updateDocument (at_time "-" 5) (at_time "v2" 5) (at_time "a2" 5)
       "d2" retitle "u1" sample_created = (None, sample_created).
Proof.
  split; [reflexivity |].
  apply updateDocument_absent. reflexivity.
Defined.

(** C2. [deleteDocument id] returns [false] and leaves the store unchanged
    when no document is stored under [id]. Otherwise it returns [true],
    removes that document (and no other), removes exactly the version rows
    and the activities whose [documentId] is [id], keeps the users; after it
    [getDocument id] is absent, [getDocumentVersions id] is empty and no
    stored activity refers to [id]. *)
Theorem deleteDocument_cascade :
  forall id s,
    wf_store s ->
    (JsMap.get id (documents s) = None -> deleteDocument id s = (false, s))
    /\ (forall doc, JsMap.get id (documents s) = Some doc ->
        let s' := snd (deleteDocument id s) in
        fst (deleteDocument id s) = true
        /\ users s' = users s
        /\ JsMap.get id (documents s') = None
        /\ (forall k, k <> id ->
              JsMap.get k (documents s') = JsMap.get k (documents s))
        /\ documentVersions s' =
             filter (fun e => negb (String.eqb (ver_documentId (snd e)) id))
               (documentVersions s)
        /\ activities s' =
             filter (fun e => negb (strict_eq (act_documentId (snd e)) id))
               (activities s)
        /\ getDocument s' id = None
        /\ getDocumentVersions s' id = []
        /\ (forall a, In a (JsMap.values (activities s')) ->
              act_documentId a <> Some id)).
Proof.
  intros id s (_ & _ & HwfV & HwfA). split.
  - intros Hget. unfold deleteDocument. now rewrite Hget.
  - intros doc Hget. unfold deleteDocument. rewrite Hget. simpl.
    rewrite (JsMapFacts.delete_loop_wf _ _ HwfV).
    rewrite (JsMapFacts.delete_loop_wf _ _ HwfA).
    repeat split.
    + apply JsMapFacts.get_delete_eq.
    + intros k Hk. apply JsMapFacts.get_delete_ne. congruence.
    + unfold getDocument. simpl. now rewrite JsMapFacts.get_delete_eq.
    + unfold getDocumentVersions. simpl. rewrite filter_none; [reflexivity |].
      intros v Hv. apply in_values_entry in Hv. destruct Hv as [k Hin].
      apply filter_In in Hin. destruct Hin as [_ Hneg]. simpl in Hneg.
      now apply negb_true_iff in Hneg.
    + intros a Ha Href. apply in_values_entry in Ha. destruct Ha as [k Hin].
      apply filter_In in Hin. destruct Hin as [_ Hneg]. simpl in Hneg.
      rewrite Href in Hneg. simpl in Hneg. now rewrite String.eqb_refl in Hneg.
Qed.

Ltac solve_wf :=
  unfold wf_store, JsMap.wf; simpl; repeat split;
  repeat (constructor; [simpl; intuition discriminate |]); constructor.

Lemma deleteDocument_cascade_witness :
  wf_store sample_retitled
  /\ fst (deleteDocument "d1" sample_retitled) = true
  /\ getDocument (snd (deleteDocument "d1" sample_retitled)) "d1" = None
  /\ getDocumentVersions (snd (deleteDocument "d1" sample_retitled)) "d1" = []
  /\ activities (snd (deleteDocument "d1" sample_retitled)) = [].
Proof.
  assert (Hwf : wf_store sample_retitled) by solve_wf.
  split; [exact Hwf |].
  destruct (deleteDocument_cascade "d1" sample_retitled Hwf) as [_ H].
  destruct (JsMap.get "d1" (documents sample_retitled)) as [doc|] eqn:E;
    [| discriminate E].
  destruct (H doc eq_refl) as (Ht & _ & _ & _ & _ & Ha & Hd & Hv & _).
  split; [exact Ht |]. split; [exact Hd |]. split; [exact Hv |].
  rewrite Ha. reflexivity.
Defined.

(** C9. For an existing document [updateDocument] keeps the document's [id],
    [createdBy] and [createdAt], whoever the editor [updatedBy] is, and the
    version row it appends has the editor as its [createdBy]. *)
Theorem updateDocument_attribution :
  forall rt rtV rtA id updates updatedBy s doc,
    JsMap.get id (documents s) = Some doc ->
    unused (randomUUID rtV) (documentVersions s) ->
    exists doc' row,
      fst (updateDocument rt rtV rtA id updates updatedBy s) = Some doc'
      /\ JsMap.get id
           (documents (snd (updateDocument rt rtV rtA id updates updatedBy s)))
         = Some doc'
      /\ doc_id doc' = doc_id doc
      /\ doc_createdBy doc' = doc_createdBy doc
      /\ doc_createdAt doc' = doc_createdAt doc
      /\ documentVersions
           (snd (updateDocument rt rtV rtA id updates updatedBy s))
         = documentVersions s ++ [(randomUUID rtV, row)]
      /\ ver_documentId row = id
      /\ ver_version row = doc_version doc'
      /\ ver_createdBy row = updatedBy.
Proof.
  intros rt rtV rtA id updates updatedBy s doc Hget Hfresh.
  unfold updateDocument. rewrite Hget. simpl.
  eexists. eexists. split; [reflexivity |].
  split; [apply JsMapFacts.get_set_eq |].
  do 3 (split; [reflexivity |]).
  split; [apply JsMapFacts.set_unused; exact Hfresh |].
  repeat split.
Qed.

Lemma updateDocument_attribution_witness :
  exists doc' row,
    fst (updateDocument (at_time "-" 5) (at_time "v2" 5) (at_time "a2" 5)
           "d1" retitle "admin" sample_created) = Some doc'
    /\ doc_createdBy doc' = "u1"
    /\ doc_createdAt doc' = 2
    /\ JsMap.get "v2" (documentVersions
         (snd (updateDocument (at_time "-" 5) (at_time "v2" 5) (at_time "a2" 5)
                 "d1" retitle "admin" sample_created))) = Some row
    /\ ver_createdBy row = "admin".
Proof.
  destruct (JsMap.get "d1" (documents sample_created)) as [doc|] eqn:E;
    [| discriminate E].
  destruct (updateDocument_attribution
              (at_time "-" 5) (at_time "v2" 5) (at_time "a2" 5)
              "d1" retitle "admin" sample_created doc E eq_refl)
    as (doc' & row & Hr & _ & _ & Hby & Hat & Hv & _ & _ & Hed).
  exists doc', row. injection E as <-.
  split; [exact Hr |]. split; [exact Hby |]. split; [exact Hat |].
  split; [| exact Hed].
  rewrite Hv. reflexivity.
Defined.

(** C4. [createDocument] stores the new document under the identifier it
    draws (unused before, by the assumption on [randomUUID]); the document it
    returns has [version = 1] and [createdAt = updatedAt]; besides that
    document the store gains exactly one version row (version 1, description
    "Initial version", the document's title, content, summary and tags) and
    exactly one activity of type "created" that refers to the document;
    nothing else changes. *)
Theorem createDocument_effect :
  forall rt rtV rtA insertDocument createdBy s,
    randomUUID rt <> EmptyString ->
    unused (randomUUID rt) (documents s) ->
    unused (randomUUID rtV) (documentVersions s) ->
    unused (randomUUID rtA) (activities s) ->
    let doc := fst (createDocument rt rtV rtA insertDocument createdBy s) in
    let s' := snd (createDocument rt rtV rtA insertDocument createdBy s) in
    doc_id doc = randomUUID rt
    /\ doc_version doc = 1
    /\ doc_createdAt doc = doc_updatedAt doc
    /\ doc_title doc = ins_title insertDocument
    /\ doc_content doc = ins_content insertDocument
    /\ doc_createdBy doc = createdBy
    /\ users s' = users s
    /\ documents s' = documents s ++ [(doc_id doc, doc)]
    /\ (exists row,
          documentVersions s' = documentVersions s ++ [(randomUUID rtV, row)]
          /\ ver_documentId row = doc_id doc
          /\ ver_version row = 1
          /\ ver_changeDescription row = Some "Initial version"
          /\ ver_title row = doc_title doc
          /\ ver_content row = doc_content doc
          /\ ver_summary row = doc_summary doc
          /\ ver_tags row = doc_tags doc
          /\ ver_createdBy row = createdBy)
    /\ (exists act,
          activities s' = activities s ++ [(randomUUID rtA, act)]
          /\ act_type act = "created"
          /\ act_documentId act = Some (doc_id doc)
          /\ act_userId act = createdBy).
Proof.
  intros rt rtV rtA ins createdBy s Hne Hd Hv Ha. simpl.
  do 7 (split; [reflexivity |]).
  split; [apply JsMapFacts.set_unused; exact Hd |].
  split.
  - eexists. split; [apply JsMapFacts.set_unused; exact Hv |].
    simpl. rewrite or_null_idem, or_empty_idem. repeat split.
  - eexists. split; [apply JsMapFacts.set_unused; exact Ha |].
    simpl. rewrite (or_null_nonempty _ Hne). repeat split.
Qed.

Lemma createDocument_effect_witness :
  let r := createDocument (at_time "d1" 2) (at_time "v1" 2) (at_time "a1" 2)
             {| ins_title := "Onboarding"; ins_content := "Welcome...";
                ins_summary := Omitted; ins_tags := Omitted |} "u1"
             sample_registered in
  doc_version (fst r) = 1
  /\ doc_createdAt (fst r) = doc_updatedAt (fst r)
  /\ List.length (documents (snd r)) = 1%nat
  /\ List.length (documentVersions (snd r)) = 1%nat
  /\ List.length (activities (snd r)) = 1%nat.
Proof.
  destruct (createDocument_effect
              (at_time "d1" 2) (at_time "v1" 2) (at_time "a1" 2)
              {| ins_title := "Onboarding"; ins_content := "Welcome...";
                 ins_summary := Omitted; ins_tags := Omitted |} "u1"
              sample_registered
              ltac:(discriminate) eq_refl eq_refl eq_refl)
    as (_ & Hver & Hat & _ & _ & _ & _ & Hdocs & (row & Hrows & _)
        & (act & Hacts & _)).
  cbv zeta. split; [exact Hver |]. split; [exact Hat |].
  rewrite Hdocs, Hrows, Hacts. repeat split.
Defined.

(** ** The version log *)

Lemma versions_upto_S (n : nat) :
  versions_upto (S n) = versions_upto n ++ [Z.of_nat (S n)].
Proof. unfold versions_upto. rewrite seq_S, map_app. reflexivity. Qed.

Lemma versions_upto_bound (n : nat) (z : Z) :
  In z (versions_upto n) -> 1 <= z <= Z.of_nat n.
Proof.
  unfold versions_upto. rewrite in_map_iff. intros [m [<- Hm]].
  apply in_seq in Hm. lia.
Qed.

Lemma version_rows_snoc (s s' : MemStorage) (vid : string)
  (row : DocumentVersion) (k : string) :
  documentVersions s' = documentVersions s ++ [(vid, row)] ->
  version_rows s' k =
  version_rows s k
  ++ (if String.eqb (ver_documentId row) k then [row] else []).
Proof.
  intros H. unfold version_rows, JsMap.values. rewrite H, map_app, filter_app.
  reflexivity.
Qed.

Lemma version_rows_same (s s' : MemStorage) (k : string) :
  documentVersions s' = documentVersions s ->
  version_rows s' k = version_rows s k.
Proof. intros H. unfold version_rows. now rewrite H. Qed.

Lemma getDocumentVersions_rows (s : MemStorage) (k : string) :
  getDocumentVersions s k = sort (by_desc ver_version) (version_rows s k).
Proof. reflexivity. Qed.

(** Rows stored in the order [1..n] are listed newest first by reversing. *)
Lemma sort_versions_upto (l : list DocumentVersion) :
  forall n, map ver_version l = versions_upto n ->
  sort (by_desc ver_version) l = rev l.
Proof.
  induction l as [|x l IH] using rev_ind; intros n Hmap; [reflexivity |].
  destruct n as [|n].
  - rewrite map_app in Hmap. simpl in Hmap.
    symmetry in Hmap. now apply app_cons_not_nil in Hmap.
  - rewrite versions_upto_S, map_app in Hmap. simpl in Hmap.
    apply app_inj_tail in Hmap. destruct Hmap as [Hl Hx].
    rewrite sort_snoc_max.
    + rewrite rev_app_distr. simpl. f_equal. now apply (IH n).
    + intros y Hy. rewrite Hx.
      assert (Hin : In (ver_version y) (versions_upto n)).
      { rewrite <- Hl. now apply in_map. }
      apply versions_upto_bound in Hin. lia.
Qed.

Lemma log_ok_new : log_ok newMemStorage.
Proof. split; [intros k d H; discriminate H | reflexivity]. Qed.

Lemma log_ok_createDocument rt rtV rtA ins createdBy s :
  log_ok s ->
  unused (randomUUID rt) (documents s) ->
  unused (randomUUID rtV) (documentVersions s) ->
  log_ok (snd (createDocument rt rtV rtA ins createdBy s)).
Proof.
  intros [Hdocs Hnone] Hd Hv.
  remember (snd (createDocument rt rtV rtA ins createdBy s)) as s' eqn:Es'.
  remember (fst (createDocument rt rtV rtA ins createdBy s)) as doc eqn:Edoc.
  assert (Hdocs' : documents s' = JsMap.set (randomUUID rt) doc (documents s))
    by (subst; reflexivity).
  destruct (createDocumentVersion rtV
     {| iv_documentId := randomUUID rt;
        iv_title := doc_title doc; iv_content := doc_content doc;
        iv_summary := Given (doc_summary doc); iv_tags := Given (doc_tags doc);
        iv_version := 1; iv_createdBy := createdBy;
        iv_changeDescription := Given (Some "Initial version") |} s)
    as [row s0] eqn:Erow.
  assert (Hrows : documentVersions s' =
                  documentVersions s ++ [(randomUUID rtV, row)]).
  { rewrite <- (JsMapFacts.set_unused _ _ _ Hv). subst s' doc.
    injection Erow as <- _. reflexivity. }
  assert (Hrow : ver_documentId row = randomUUID rt
                 /\ ver_version row = 1
                 /\ same_text_normalised row doc).
  { injection Erow as <- _. repeat split. }
  destruct Hrow as (Hrid & Hrv & Hsame).
  assert (Hdv : doc_version doc = 1) by (subst doc; reflexivity).
  clear Es' Edoc Erow. split.
  - intros k d Hget. rewrite Hdocs' in Hget.
    rewrite (version_rows_snoc s s' _ row k Hrows), Hrid.
    destruct (String.eqb (randomUUID rt) k) eqn:E.
    + apply String.eqb_eq in E. subst k.
      rewrite JsMapFacts.get_set_eq in Hget. injection Hget as <-.
      exists 0%nat, [], row. rewrite (Hnone _ Hd). simpl.
      split; [exact Hdv |]. split; [reflexivity |].
      split; [now rewrite Hrv | exact Hsame].
    + apply String.eqb_neq in E.
      rewrite JsMapFacts.get_set_ne in Hget by assumption.
      rewrite app_nil_r. now apply Hdocs.
  - intros k Hget. rewrite Hdocs' in Hget.
    rewrite (version_rows_snoc s s' _ row k Hrows), Hrid.
    destruct (String.eqb (randomUUID rt) k) eqn:E.
    + apply String.eqb_eq in E. subst k.
      now rewrite JsMapFacts.get_set_eq in Hget.
    + apply String.eqb_neq in E.
      rewrite JsMapFacts.get_set_ne in Hget by assumption.
      rewrite app_nil_r. now apply Hnone.
Qed.

Lemma log_ok_updateDocument rt rtV rtA id updates updatedBy s :
  log_ok s ->
  unused (randomUUID rtV) (documentVersions s) ->
  log_ok (snd (updateDocument rt rtV rtA id updates updatedBy s)).
Proof.
  intros Hok Hv. unfold updateDocument.
  destruct (JsMap.get id (documents s)) as [doc|] eqn:Hget; [| exact Hok].
  destruct Hok as [Hdocs Hnone].
  match goal with
  | |- log_ok (snd (Some ?d, _)) => remember d as doc' eqn:Edoc'
  end.
  match goal with
  | |- log_ok (snd (_, ?st)) => change (log_ok st); remember st as s' eqn:Es'
  end.
  assert (Hdocs' : documents s' = JsMap.set id doc' (documents s))
    by (subst s'; reflexivity).
  destruct (createDocumentVersion rtV
     {| iv_documentId := id;
        iv_title := doc_title doc'; iv_content := doc_content doc';
        iv_summary := Given (doc_summary doc'); iv_tags := Given (doc_tags doc');
        iv_version := doc_version doc + 1; iv_createdBy := updatedBy;
        iv_changeDescription := Given (Some "Document updated") |} s)
    as [row s0] eqn:Erow.
  assert (Hrows : documentVersions s' =
                  documentVersions s ++ [(randomUUID rtV, row)]).
  { rewrite <- (JsMapFacts.set_unused _ _ _ Hv). subst s'.
    injection Erow as <- _. reflexivity. }
  assert (Hrow : ver_documentId row = id
                 /\ ver_version row = doc_version doc + 1
                 /\ same_text_normalised row doc').
  { injection Erow as <- _. repeat split. }
  destruct Hrow as (Hrid & Hrv & Hsame).
  assert (Hdv : doc_version doc' = doc_version doc + 1)
    by (subst doc'; reflexivity).
  clear Es' Edoc' Erow. split.
  - intros k d Hk. rewrite Hdocs' in Hk.
    rewrite (version_rows_snoc s s' _ row k Hrows), Hrid.
    destruct (String.eqb id k) eqn:E.
    + apply String.eqb_eq in E. subst k.
      rewrite JsMapFacts.get_set_eq in Hk. injection Hk as <-.
      destruct (Hdocs _ _ Hget) as (n & rows & row0 & Hn & _ & Hmap & _).
      exists (S n), (version_rows s id), row.
      split; [rewrite Hdv, Hn; lia |]. split; [reflexivity |].
      split; [| exact Hsame].
      rewrite map_app, Hmap, (versions_upto_S (S n)). simpl map.
      rewrite Hrv, Hn. do 2 f_equal. lia.
    + apply String.eqb_neq in E.
      rewrite JsMapFacts.get_set_ne in Hk by assumption.
      rewrite app_nil_r. now apply Hdocs.
  - intros k Hk. rewrite Hdocs' in Hk.
    rewrite (version_rows_snoc s s' _ row k Hrows), Hrid.
    destruct (String.eqb id k) eqn:E.
    + apply String.eqb_eq in E. subst k.
      now rewrite JsMapFacts.get_set_eq in Hk.
    + apply String.eqb_neq in E.
      rewrite JsMapFacts.get_set_ne in Hk by assumption.
      rewrite app_nil_r. now apply Hnone.
Qed.

Lemma log_ok_reachable (s : MemStorage) :
  reachable create_or_update s -> log_ok s.
Proof.
  induction 1 as [|s o Hreach IH Hallowed Hfresh]; [apply log_ok_new |].
  destruct o; try discriminate Hallowed; simpl in *.
  - destruct Hfresh as (Hd & Hv & _). now apply log_ok_createDocument.
  - destruct Hfresh as (Hv & _). now apply log_ok_updateDocument.
Qed.

(** What holds of the version log in every state reached by creating and
    updating documents: a stored document of version [n] has [n] rows,
    [getDocumentVersions] lists them with the numbers [n, n-1, ..., 1], and
    the newest row holds the document's title and content, and its summary
    and tags as normalised by [createDocumentVersion]. *)
Lemma version_log_contiguous (s : MemStorage) (k : string) (d : Document) :
  reachable create_or_update s ->
  JsMap.get k (documents s) = Some d ->
  exists (n : nat) (row : DocumentVersion) (older : list DocumentVersion),
    doc_version d = Z.of_nat n
    /\ getDocumentVersions s k = row :: older
    /\ List.length (getDocumentVersions s k) = n
    /\ map ver_version (getDocumentVersions s k) = rev (versions_upto n)
    /\ ver_version row = doc_version d
    /\ same_text_normalised row d.
Proof.
  intros Hreach Hget.
  destruct (log_ok_reachable _ Hreach) as [Hdocs _].
  destruct (Hdocs _ _ Hget) as (n & rows & row & Hn & Hrows & Hmap & Hsame).
  rewrite getDocumentVersions_rows, (sort_versions_upto _ _ Hmap).
  exists (S n), row, (rev rows).
  split; [exact Hn |].
  split; [rewrite Hrows, rev_app_distr; reflexivity |].
  split.
  { rewrite length_rev, <- (length_map ver_version), Hmap.
    unfold versions_upto. now rewrite length_map, length_seq. }
  split; [rewrite map_rev, Hmap; reflexivity |].
  split; [| exact Hsame].
  rewrite Hrows, map_app, versions_upto_S in Hmap. simpl in Hmap.
  apply app_inj_tail in Hmap. destruct Hmap as [_ Hv]. now rewrite Hv, Hn.
Qed.

(** C1. The version-log invariant (a document of version [n] has the rows
    [1..n], and row [n] has the document's title, content, summary and tags)
    does not hold of the code in its second half. The counting half holds
    (see [version_log_contiguous]), but the newest row need not carry the
    document's summary and tags: [createDocumentVersion] stores an empty
    summary as null (and null tags as the empty list) while [updateDocument]
    keeps them as given in the document. Saving a freshly created document
    with a blank summary, as the editor form does, reaches a state where the
    document of version 2 has summary [Some EmptyString] and its row number 2
    has summary [None]. *)
Theorem version_row_misses_blank_summary :
  exists (d : Document) (row : DocumentVersion) (older : list DocumentVersion),
    reachable create_or_update sample_resaved
    /\ JsMap.get "d1" (documents sample_resaved) = Some d
    /\ doc_version d = 2
    /\ getDocumentVersions sample_resaved "d1" = row :: older
    /\ map ver_version (getDocumentVersions sample_resaved "d1") = [2; 1]
    /\ doc_summary d = Some EmptyString
    /\ ver_summary row = None
    /\ ~ same_text row d.
Proof.
  do 3 eexists.
  split.
  { unfold sample_resaved. apply reachable_exec; [| reflexivity |].
    - apply reachable_exec; [apply reachable_new | reflexivity |].
      repeat split.
    - repeat split. }
  split; [reflexivity |].
  split; [reflexivity |].
  split; [reflexivity |].
  split; [reflexivity |].
  split; [reflexivity |].
  split; [reflexivity |].
  intros (_ & _ & Hsum & _). discriminate Hsum.
Qed.

(** What [updateDocument] does to an existing document, the drawn identifiers
    being unused: the merge, the new version number, the appended row and the
    appended activity. The row holds the merged title and content, and the
    merged summary and tags as normalised by [createDocumentVersion]. *)
Lemma updateDocument_effect rt rtV rtA id updates updatedBy s doc :
  JsMap.get id (documents s) = Some doc ->
  unused (randomUUID rtV) (documentVersions s) ->
  unused (randomUUID rtA) (activities s) ->
  exists doc' row act,
    updateDocument rt rtV rtA id updates updatedBy s =
      (Some doc',
       {| users := users s;
          documents := JsMap.set id doc' (documents s);
          documentVersions := documentVersions s ++ [(randomUUID rtV, row)];
          activities := activities s ++ [(randomUUID rtA, act)] |})
    /\ doc_title doc' = spread (doc_title doc) (upd_title updates)
    /\ doc_content doc' = spread (doc_content doc) (upd_content updates)
    /\ doc_summary doc' = spread (doc_summary doc) (upd_summary updates)
    /\ doc_tags doc' = spread (doc_tags doc) (upd_tags updates)
    /\ doc_updatedAt doc' = newDate rt
    /\ doc_version doc' = doc_version doc + 1
    /\ ver_documentId row = id
    /\ ver_version row = doc_version doc'
    /\ ver_changeDescription row = Some "Document updated"
    /\ same_text_normalised row doc'
    /\ act_type act = "updated"
    /\ act_userId act = updatedBy
    /\ act_documentId act = or_null (Given (Some id)).
Proof.
  intros Hget Hv Ha. unfold updateDocument. rewrite Hget.
  unfold createActivity, createDocumentVersion. cbn [fst snd].
  cbn [users documents documentVersions activities].
  rewrite (JsMapFacts.set_unused _ _ _ Hv), (JsMapFacts.set_unused _ _ _ Ha).
  do 3 eexists. split; [reflexivity |].
  repeat split.
Qed.

(** C3. [updateDocument] merges the given fields over the document, sets
    [updatedAt], adds one to the version and appends a row and an "updated"
    activity (see [updateDocument_effect]); but the appended row is not a
    snapshot of the post-merge summary when that summary is the empty string
    (nor of post-merge null tags), by the defect shown for C1. Saving the
    retitled sample document with a blank summary gives a document with
    summary [Some EmptyString] whose new row, numbered 3 and described
    "Document updated", has summary [None]. *)
Theorem updateDocument_snapshot_blank_summary :
  exists (doc' : Document) (row : DocumentVersion),
    updateDocument (at_time "-" 7) (at_time "v3" 7) (at_time "a3" 7)
      "d1" blank_summary "u1" sample_retitled = (Some doc', sample_saved)
    /\ doc_version doc' = 3
    /\ doc_summary doc' = Some EmptyString
    /\ JsMap.get "v3" (documentVersions sample_saved) = Some row
    /\ ver_version row = 3
    /\ ver_changeDescription row = Some "Document updated"
    /\ ver_summary row = None
    /\ ver_summary row <> doc_summary doc'.
Proof.
  do 2 eexists.
  split; [reflexivity |].
  split; [reflexivity |].
  split; [reflexivity |].
  split; [reflexivity |].
  split; [reflexivity |].
  split; [reflexivity |].
  split; [reflexivity | discriminate].
Qed.

(** The same for tags: an update that sets the tags to null leaves the
    document with null tags and its new row with the empty list. *)
Example updateDocument_snapshot_null_tags :
  exists (doc' : Document) (row : DocumentVersion) (s' : MemStorage),
    updateDocument (at_time "-" 5) (at_time "v2" 5) (at_time "a2" 5)
      "d1" null_tags "u1" sample_created = (Some doc', s')
    /\ doc_tags doc' = None
    /\ JsMap.get "v2" (documentVersions s') = Some row
    /\ ver_version row = doc_version doc'
    /\ ver_tags row = Some [].
Proof.
  do 3 eexists. split; [reflexivity |]. repeat split.
Qed.

(** ** Listings *)

Lemma getDocuments_sort (s : MemStorage) :
  getDocuments s =
  sort (by_desc updated) (collect (with_author s) (JsMap.values (documents s))).
Proof. reflexivity. Qed.

Lemma with_author_Some (s : MemStorage) (d : Document) (x : DocumentWithUser) :
  with_author s d = Some x <->
  dwu_document x = d /\ getUser s (doc_createdBy d) = Some (dwu_createdBy x).
Proof.
  unfold with_author. destruct (getUser s (doc_createdBy d)) as [u|].
  - split.
    + intros [= <-]. now split.
    + intros [Hd [= Hu]]. destruct x as [xd xu]. simpl in *. now subst.
  - split; [discriminate | intros [_ H]; discriminate H].
Qed.

(** C8. [getDocuments] returns, each once, the stored documents whose author
    is a stored user, joined with that user, sorted by [updatedAt]
    descending; of two listed documents with distinct [updatedAt] the more
    recently updated one comes first. *)
Theorem getDocuments_sorted :
  forall s,
    Permutation (getDocuments s)
      (collect (with_author s) (JsMap.values (documents s)))
    /\ (forall x, In x (getDocuments s) <->
          exists d, In d (JsMap.values (documents s))
            /\ dwu_document x = d
            /\ getUser s (doc_createdBy d) = Some (dwu_createdBy x))
    /\ StronglySorted (desc updated) (getDocuments s)
    /\ (forall l1 a l2 b l3,
          getDocuments s = l1 ++ a :: l2 ++ b :: l3 ->
          updated a <> updated b -> updated b < updated a).
Proof.
  intros s. rewrite getDocuments_sort.
  split; [apply sort_perm |].
  split.
  { intros x. rewrite sort_In, in_collect.
    split; intros [d [Hin Hd]]; exists d; (split; [exact Hin |]);
      now apply with_author_Some. }
  split; [apply sort_sorted |].
  intros l1 a l2 b l3 Heq Hne.
  pose proof (sort_sorted updated
    (collect (with_author s) (JsMap.values (documents s)))) as Hs.
  rewrite Heq in Hs.
  change (l1 ++ a :: l2 ++ b :: l3) with (l1 ++ (a :: l2) ++ b :: l3) in Hs.
  rewrite app_assoc in Hs.
  assert (Hab : desc updated a b).
  { apply (sorted_app_desc updated _ _ Hs).
    - apply in_or_app. right. now left.
    - now left. }
  unfold desc in Hab. lia.
Qed.

Lemma getDocuments_sorted_witness :
  map (fun x => (doc_id (dwu_document x), updated x)) (getDocuments sample_two)
  = [("d1", 5); ("d2", 3)]
  /\ StronglySorted (desc updated) (getDocuments sample_two)
  /\ 3 < 5.
Proof.
  split; [reflexivity |].
  destruct (getDocuments_sorted sample_two) as (_ & _ & Hs & Hlt).
  split; [exact Hs |].
  destruct (getDocuments sample_two) as [|a [|b l3]] eqn:E;
    [discriminate E | discriminate E |].
  injection E as Ea Eb _.
  specialize (Hlt [] a [] b l3 eq_refl). subst a b.
  apply Hlt. vm_compute. discriminate.
Defined.

Lemma sorted_filter {A : Type} (R : A -> A -> Prop) (p : A -> bool)
  (l : list A) :
  StronglySorted R l -> StronglySorted R (filter p l).
Proof.
  induction 1 as [|x l Hs IH Hall]; simpl; [constructor |].
  destruct (p x); [| assumption].
  constructor; [assumption |].
  rewrite Forall_forall in *. intros y Hy. apply filter_In in Hy. now apply Hall.
Qed.

Lemma with_details_activity (s : MemStorage) (l : list Activity) :
  map awd_activity (collect (with_details s) l) = filter (resolvable s) l.
Proof.
  induction l as [|a l IH]; [reflexivity |].
  rewrite collect_cons. simpl filter. unfold resolvable at 1.
  destruct (getUser s (act_userId a)) as [u|] eqn:E.
  - assert (Hr : exists r, with_details s a = Some r /\ awd_activity r = a)
      by (unfold with_details; rewrite E; eauto).
    destruct Hr as (r & -> & Hr). simpl. now rewrite IH, Hr.
  - assert (Hr : with_details s a = None)
      by (unfold with_details; now rewrite E).
    now rewrite Hr.
Qed.

Lemma with_details_Some (s : MemStorage) (a : Activity)
  (r : ActivityWithDetails) :
  with_details s a = Some r ->
  awd_activity r = a
  /\ getUser s (act_userId a) = Some (awd_user r)
  /\ (forall d, act_documentId a = Some d -> d <> EmptyString ->
        awd_document r = JsMap.get d (documents s))
  /\ (act_documentId a = None -> awd_document r = None).
Proof.
  unfold with_details.
  destruct (getUser s (act_userId a)) as [u|]; [| discriminate].
  intros [= <-]. simpl. repeat split.
  - intros d Hd Hne. rewrite Hd. apply String.eqb_neq in Hne. now rewrite Hne.
  - intros Hd. now rewrite Hd.
Qed.

Lemma getRecentActivities_firstn (s : MemStorage) (N : Z) :
  0 <= N ->
  getRecentActivities s (Some N) =
  collect (with_details s)
    (firstn (Z.to_nat N)
       (sort (by_desc act_createdAt) (JsMap.values (activities s)))).
Proof.
  intros HN. unfold getRecentActivities. now rewrite slice_0_nonneg.
Qed.

(** C6, for limits [0 <= N]. [getRecentActivities s N] takes the [N]
    most recent of all stored activities, newest first, and returns those of
    them whose [userId] is a stored user, in that order, each joined with the
    user and, when it refers to a document, with what the store holds under
    the reference; an activity whose user is not stored is left out without
    an error. *)
Theorem getRecentActivities_top :
  forall s N,
    0 <= N ->
    recent_activities_spec s N (getRecentActivities s (Some N)).
Proof.
  intros s N HN. rewrite (getRecentActivities_firstn s N HN).
  set (sorted := sort (by_desc act_createdAt) (JsMap.values (activities s))).
  assert (Hsorted : StronglySorted (desc act_createdAt)
                      (firstn (Z.to_nat N) sorted ++ skipn (Z.to_nat N) sorted)).
  { rewrite firstn_skipn. apply sort_sorted. }
  exists (firstn (Z.to_nat N) sorted), (skipn (Z.to_nat N) sorted).
  split.
  { rewrite firstn_skipn. apply Permutation_sym, sort_perm. }
  split.
  { rewrite length_firstn. unfold sorted. now rewrite sort_length. }
  split.
  { intros a b Ha Hb.
    exact (sorted_app_desc act_createdAt _ _ Hsorted a b Ha Hb). }
  split; [exact (sorted_app_l act_createdAt _ _ Hsorted) |].
  split; [apply with_details_activity |].
  intros r Hr. apply in_collect in Hr. destruct Hr as [a [_ Hr]].
  apply with_details_Some in Hr. destruct Hr as (<- & Hu & Hd & Hn).
  auto.
Qed.

Lemma getRecentActivities_top_witness :
  0 <= 1
  /\ recent_activities_spec sample_two 1
       (getRecentActivities sample_two (Some 1))
  /\ map (fun r => act_type (awd_activity r))
       (getRecentActivities sample_two (Some 1)) = ["updated"].
Proof.
  split; [lia |].
  split; [apply (getRecentActivities_top sample_two 1); lia | reflexivity].
Defined.

(** C6 does not extend to negative limits: [slice(0, -1)] drops only the
    oldest activity, so two of the three activities of the sample come back
    where none is among "the -1 most recent". *)
Lemma getRecentActivities_negative_limit :
  ~ (forall s N, recent_activities_spec s N (getRecentActivities s (Some N))).
Proof.
  intros H. specialize (H sample_two (-1)).
  destruct H as (top & rest & _ & Hlen & _ & _ & Hmap & _).
  simpl in Hlen. apply length_zero_iff_nil in Hlen. subst top.
  discriminate Hmap.
Qed.

(** ** Literal search *)

Lemma prefix_app (q s : string) :
  String.prefix q s = true <-> exists b : string, s = (q ++ b)%string.
Proof.
  revert s. induction q as [|c q IH]; intros s; simpl.
  - destruct s; (split; [intros _; eexists; reflexivity | reflexivity]).
  - destruct s as [|c' s]; simpl.
    + split; [discriminate | intros [b Hb]; discriminate Hb].
    + destruct (ascii_dec c c') as [<- | Hne].
      * rewrite IH. split; intros [b Hb]; exists b; congruence.
      * split; [discriminate | intros [b [= Hc _]]; congruence].
Qed.

Lemma includes_nil (q : string) :
  includes EmptyString q = String.prefix q EmptyString.
Proof. unfold includes. apply orb_false_r. Qed.

Lemma includes_cons (c : ascii) (s q : string) :
  includes (String c s) q = String.prefix q (String c s) || includes s q.
Proof. reflexivity. Qed.

Lemma includes_spec (s q : string) : includes s q = true <-> Substring q s.
Proof.
  unfold Substring. induction s as [|c s IH].
  - rewrite includes_nil, prefix_app. split.
    + intros [b Hb]. exists EmptyString, b. exact Hb.
    + intros [a [b Hab]]. destruct a as [|c a]; [| discriminate Hab].
      exists b. exact Hab.
  - rewrite includes_cons, orb_true_iff, prefix_app, IH. split.
    + intros [[b Hb] | [a [b Hab]]].
      * exists EmptyString, b. exact Hb.
      * exists (String c a), b. simpl. now rewrite Hab.
    + intros [a [b Hab]]. destruct a as [|c' a].
      * left. exists b. exact Hab.
      * right. injection Hab as _ Hab. eauto.
Qed.

Lemma Substring_empty_l (s : string) : Substring EmptyString s.
Proof. exists EmptyString, s. reflexivity. Qed.

Lemma Substring_empty_r (q : string) :
  Substring q EmptyString -> q = EmptyString.
Proof.
  intros [a [b Hab]]. destruct a; [| discriminate Hab].
  destruct q; [reflexivity | discriminate Hab].
Qed.

Section SearchFacts.
Variable toLowerCase : string -> string.
Hypothesis toLowerCase_empty : toLowerCase EmptyString = EmptyString.

Lemma search_hit_matches (query : string) (x : DocumentWithUser) :
  search_hit toLowerCase (toLowerCase query) x = true
  <-> matches toLowerCase query x.
Proof.
  unfold search_hit, matches. cbv zeta.
  rewrite !orb_true_iff, !includes_spec.
  split.
  - intros [[[Ht | Hc] | Hs] | Hg]; [tauto | tauto | |].
    + destruct (doc_summary (dwu_document x)) as [sm|]; [| discriminate].
      apply andb_true_iff in Hs. destruct Hs as [_ Hs].
      apply includes_spec in Hs. right; right; left. eauto.
    + destruct (doc_tags (dwu_document x)) as [tags|]; [| discriminate].
      apply existsb_exists in Hg. destruct Hg as [tag [Hin Hg]].
      apply includes_spec in Hg. right; right; right. eauto.
  - intros [Ht | [Hc | [[sm [Hsm Hs]] | [tags [tag [Htags [Hin Hg]]]]]]];
      [tauto | tauto | |].
    + rewrite Hsm. destruct (String.eqb sm EmptyString) eqn:E.
      * apply String.eqb_eq in E. subst sm.
        rewrite toLowerCase_empty in Hs.
        apply Substring_empty_r in Hs. rewrite Hs.
        left; left; left. apply Substring_empty_l.
      * left; right. simpl. now apply includes_spec.
    + rewrite Htags. right. apply existsb_exists. exists tag.
      split; [exact Hin | now apply includes_spec].
Qed.

(** C5. [searchDocuments s query] keeps, in the order of [getDocuments s],
    exactly the listed documents for which the lower-cased query occurs in
    the lower-cased title, content, summary (when there is one) or some
    tag; two queries with the same lower-casing give the same result. *)
Theorem searchDocuments_filter :
  forall s query,
    (exists keep : DocumentWithUser -> bool,
       (forall x, keep x = true <-> matches toLowerCase query x)
       /\ searchDocuments toLowerCase s query = filter keep (getDocuments s))
    /\ (forall x, In x (searchDocuments toLowerCase s query) <->
          In x (getDocuments s) /\ matches toLowerCase query x)
    /\ (forall query',
          toLowerCase query' = toLowerCase query ->
          searchDocuments toLowerCase s query'
          = searchDocuments toLowerCase s query).
Proof.
  intros s query. split; [| split].
  - exists (search_hit toLowerCase (toLowerCase query)).
    split; [apply search_hit_matches | reflexivity].
  - intros x. unfold searchDocuments. cbv zeta.
    rewrite filter_In, search_hit_matches. reflexivity.
  - intros query' Hq. unfold searchDocuments. now rewrite Hq.
Qed.
End SearchFacts.

Lemma searchDocuments_filter_witness :
  ascii_toLowerCase EmptyString = EmptyString
  /\ (forall x, In x (searchDocuments ascii_toLowerCase sample_two "BETA") <->
        In x (getDocuments sample_two) /\ matches ascii_toLowerCase "BETA" x)
  /\ map (fun x => doc_title (dwu_document x))
       (searchDocuments ascii_toLowerCase sample_two "BETA")
     = ["Release Notes"]
  /\ map (fun x => doc_title (dwu_document x))
       (searchDocuments ascii_toLowerCase sample_two "release")
     = ["Release Notes"]
  /\ searchDocuments ascii_toLowerCase sample_two "gamma" = [].
Proof.
  split; [reflexivity |].
  split; [| repeat split].
  apply (searchDocuments_filter ascii_toLowerCase eq_refl sample_two "BETA").
Defined.

(** ** Activity types *)

Lemma in_values_set {V : Type} (m : JsMap.t V) (k : string) (v v' : V) :
  In v' (JsMap.values (JsMap.set k v m)) -> v' = v \/ In v' (JsMap.values m).
Proof.
  induction m as [|[k0 v0] m IH]; simpl.
  - intros [<- | []]. now left.
  - destruct (String.eqb k k0); simpl.
    + intros [<- | H]; auto.
    + intros [<- | H]; auto. destruct (IH H); auto.
Qed.

Lemma in_values_delete_loop {V : Type} (p : V -> bool)
  (l : list (string * V)) (m : JsMap.t V) (v : V) :
  In v (JsMap.values (JsMap.delete_loop p l m)) -> In v (JsMap.values m).
Proof.
  rewrite JsMapFacts.delete_loop_filter. rewrite !in_values_entry.
  intros [k Hin]. apply filter_In in Hin. exists k. tauto.
Qed.

Lemma activity_types_exec (o : Op) (s : MemStorage) :
  not_createActivity o = true ->
  activity_types_ok s -> activity_types_ok (exec o s).
Proof.
  intros Hallowed Hok a.
  destruct o as [rt u | rt rtV rtA d by_ | rt rtV rtA id u by_ | id
                | rt v | rt ia]; try discriminate Hallowed; simpl.
  - apply Hok.
  - intros Hin. apply in_values_set in Hin.
    destruct Hin as [-> | Hin]; [now left | now apply Hok].
  - unfold updateDocument.
    destruct (JsMap.get id (documents s)); [| apply Hok].
    simpl. intros Hin. apply in_values_set in Hin.
    destruct Hin as [-> | Hin]; [now right | now apply Hok].
  - unfold deleteDocument.
    destruct (JsMap.get id (documents s)); [| apply Hok].
    simpl. intros Hin. apply in_values_delete_loop in Hin. now apply Hok.
  - apply Hok.
Qed.

(** C10, for runs without direct calls of [createActivity]. In every
    state reached by [createUser], [createDocument], [updateDocument],
    [deleteDocument] and [createDocumentVersion], every stored activity has
    type "created" or "updated": [deleteDocument] records nothing, it only
    removes activities. *)
Theorem activity_types_reachable :
  forall s, reachable not_createActivity s -> activity_types_ok s.
Proof.
  induction 1 as [|s o Hreach IH Hallowed Hfresh].
  - intros a [].
  - now apply activity_types_exec.
Qed.

Ltac solve_reachable :=
  repeat (apply reachable_exec; [| reflexivity | simpl; repeat split]);
  apply reachable_new.

Lemma activity_types_reachable_witness :
  reachable not_createActivity (exec (OpDeleteDocument "d2") sample_two)
  /\ map act_type
       (JsMap.values (activities (exec (OpDeleteDocument "d2") sample_two)))
     = ["created"; "updated"]
  /\ activity_types_ok (exec (OpDeleteDocument "d2") sample_two).
Proof.
  assert (Hreach : reachable not_createActivity
                     (exec (OpDeleteDocument "d2") sample_two))
    by (unfold sample_two, sample_created, sample_registered; solve_reachable).
  split; [exact Hreach |].
  split; [reflexivity |].
  exact (activity_types_reachable _ Hreach).
Defined.

(** C10 does not extend to runs with direct calls of [createActivity]: it is
    a method of the store and records whatever type it is given, "deleted"
    included. *)
Lemma createActivity_records_deleted :
  ~ (forall s, reachable any_op s -> activity_types_ok s).
Proof.
  intros H.
  assert (Hreach : reachable any_op sample_logged)
    by (unfold sample_logged; solve_reachable).
  destruct (H _ Hreach
              {| act_id := "a1"; act_type := "deleted"; act_documentId := None;
                 act_userId := "u1"; act_description := "Deleted a document";
                 act_createdAt := 1 |}) as [Ht | Ht];
    [left; reflexivity | discriminate Ht | discriminate Ht].
Qed.

(** ** Further facts about runs *)

(** Every method keeps the keys of the four maps pairwise distinct. *)
Lemma wf_store_exec (o : Op) (s : MemStorage) :
  wf_store s -> wf_store (exec o s).
Proof.
  intros (Hu & Hd & Hv & Ha).
  destruct o as [rt u | rt rtV rtA d by_ | rt rtV rtA id u by_ | id
                | rt v | rt ia]; simpl.
  - repeat split; simpl; auto using JsMapFacts.wf_set.
  - repeat split; simpl; auto using JsMapFacts.wf_set.
  - unfold updateDocument.
    destruct (JsMap.get id (documents s)); [| repeat split; assumption].
    repeat split; simpl; auto using JsMapFacts.wf_set.
  - unfold deleteDocument.
    destruct (JsMap.get id (documents s)); [| repeat split; assumption].
    repeat split; simpl; auto using JsMapFacts.wf_delete;
      rewrite JsMapFacts.delete_loop_filter; now apply JsMapFacts.wf_filter.
  - repeat split; simpl; auto using JsMapFacts.wf_set.
  - repeat split; simpl; auto using JsMapFacts.wf_set.
Qed.

Lemma wf_store_reachable (allowed : Op -> bool) (s : MemStorage) :
  reachable allowed s -> wf_store s.
Proof.
  induction 1; [repeat split; constructor | now apply wf_store_exec].
Qed.

Lemma updateDocument_version rt rtV rtA id updates updatedBy s d :
  JsMap.get id (documents s) = Some d ->
  exists d',
    JsMap.get id
      (documents (exec (OpUpdateDocument rt rtV rtA id updates updatedBy) s))
    = Some d'
    /\ doc_version d' = doc_version d + 1.
Proof.
  intros Hget. simpl. unfold updateDocument. rewrite Hget. simpl.
  rewrite JsMapFacts.get_set_eq. eexists. split; reflexivity.
Qed.

Lemma run_updates (id : string) (ups : list Op) :
  forall s d,
    reachable create_or_update s ->
    JsMap.get id (documents s) = Some d ->
    Forall (is_update_of id) ups ->
    fresh_run ups s ->
    reachable create_or_update (run ups s)
    /\ exists d', JsMap.get id (documents (run ups s)) = Some d'
         /\ doc_version d' = doc_version d + Z.of_nat (List.length ups).
Proof.
  induction ups as [|o ups IH]; intros s d Hreach Hget Hall Hfresh.
  - split; [exact Hreach |]. exists d. simpl. split; [exact Hget | lia].
  - inversion Hall as [|? ? Ho Hall']; subst. destruct Hfresh as [Hf Hfresh].
    destruct o as [| | rt rtV rtA id' u by_ | | |]; try contradiction.
    simpl in Ho. subst id'.
    destruct (updateDocument_version rt rtV rtA id u by_ s d Hget)
      as (d1 & Hget1 & Hv1).
    assert (Hreach1 : reachable create_or_update
                        (exec (OpUpdateDocument rt rtV rtA id u by_) s))
      by (apply reachable_exec; [exact Hreach | reflexivity | exact Hf]).
    destruct (IH _ d1 Hreach1 Hget1 Hall' Hfresh) as (Hr & d' & Hget' & Hv').
    split; [exact Hr |]. exists d'. split; [exact Hget' |].
    rewrite Hv', Hv1. simpl List.length. lia.
Qed.

(** The counting half of C1 in its second form: [N] updates of a freshly
    created document leave it at version [N + 1] with the rows numbered
    [N + 1, ..., 1]. *)
Lemma version_after_updates rt rtV rtA ins createdBy (ups : list Op)
  (s : MemStorage) :
  reachable create_or_update s ->
  fresh (OpCreateDocument rt rtV rtA ins createdBy) s ->
  Forall (is_update_of (randomUUID rt)) ups ->
  fresh_run ups (exec (OpCreateDocument rt rtV rtA ins createdBy) s) ->
  exists d,
    JsMap.get (randomUUID rt)
      (documents (run ups (exec (OpCreateDocument rt rtV rtA ins createdBy) s)))
    = Some d
    /\ doc_version d = Z.of_nat (List.length ups) + 1
    /\ map ver_version
         (getDocumentVersions
            (run ups (exec (OpCreateDocument rt rtV rtA ins createdBy) s))
            (randomUUID rt))
       = rev (versions_upto (S (List.length ups))).
Proof.
  intros Hreach Hfresh Hall Hrun.
  set (s1 := exec (OpCreateDocument rt rtV rtA ins createdBy) s) in *.
  assert (Hreach1 : reachable create_or_update s1)
    by (apply reachable_exec; [exact Hreach | reflexivity | exact Hfresh]).
  assert (Hget1 : exists d1, JsMap.get (randomUUID rt) (documents s1) = Some d1
                             /\ doc_version d1 = 1).
  { eexists. split; [apply JsMapFacts.get_set_eq | reflexivity]. }
  destruct Hget1 as (d1 & Hget1 & Hv1).
  destruct (run_updates _ ups s1 d1 Hreach1 Hget1 Hall Hrun)
    as (Hr & d & Hget & Hv).
  exists d. split; [exact Hget |]. split; [lia |].
  destruct (version_log_contiguous _ _ _ Hr Hget)
    as (n & _ & _ & Hn & _ & _ & Hmap & _).
  assert (n = S (List.length ups)) by lia. now subst n.
Qed.

(** * Further properties of the store *)

(** ** Users *)

Lemma find_snoc {A : Type} (p : A -> bool) (l : list A) (x : A) :
  find p (l ++ [x]) =
  match find p l with
  | Some y => Some y
  | None => if p x then Some x else None
  end.
Proof.
  induction l as [|y l IH]; simpl; [reflexivity |].
  destruct (p y); [reflexivity | exact IH].
Qed.

Lemma values_snoc {V : Type} (m : JsMap.t V) (k : string) (v : V) :
  JsMap.values (m ++ [(k, v)]) = JsMap.values m ++ [v].
Proof. unfold JsMap.values. now rewrite map_app. Qed.

(** X1. A user stored by [createUser] is the one [getUser] returns for the
    drawn identifier, [getUser] is unchanged for every other identifier, the
    other three maps are untouched, and the stored role is never empty: an
    omitted or empty role becomes "user". *)
Theorem createUser_getUser :
  forall rt insertUser s,
    getUser (snd (createUser rt insertUser s)) (randomUUID rt)
    = Some (fst (createUser rt insertUser s))
    /\ (forall id, id <> randomUUID rt ->
          getUser (snd (createUser rt insertUser s)) id = getUser s id)
    /\ documents (snd (createUser rt insertUser s)) = documents s
    /\ documentVersions (snd (createUser rt insertUser s)) = documentVersions s
    /\ activities (snd (createUser rt insertUser s)) = activities s
    /\ user_role (fst (createUser rt insertUser s)) <> EmptyString
    /\ (iu_role insertUser = Omitted
        \/ iu_role insertUser = Given EmptyString ->
        user_role (fst (createUser rt insertUser s)) = "user").
Proof.
  intros rt u s. unfold getUser. simpl.
  split; [apply JsMapFacts.get_set_eq |].
  split; [intros id Hne; apply JsMapFacts.get_set_ne; congruence |].
  do 3 (split; [reflexivity |]).
  split.
  - destruct (iu_role u) as [|r]; simpl; [discriminate |].
    destruct (String.eqb r EmptyString) eqn:E; [discriminate |].
    now apply String.eqb_neq.
  - intros [-> | ->]; reflexivity.
Qed.

(** X2. [createUser] does not look at the email. After it, [getUserByEmail]
    still answers with the user it answered with before, if there was one
    (so a second user with a taken email is never found by email); otherwise
    it answers with the new user exactly when the email asked for is the new
    user's. *)
Theorem createUser_getUserByEmail :
  forall rt insertUser s email,
    unused (randomUUID rt) (users s) ->
    getUserByEmail (snd (createUser rt insertUser s)) email =
    match getUserByEmail s email with
    | Some earlier => Some earlier
    | None =>
        if String.eqb (iu_email insertUser) email
        then Some (fst (createUser rt insertUser s))
        else None
    end.
Proof.
  intros rt u s email Hfresh. unfold getUserByEmail. simpl.
  rewrite (JsMapFacts.set_unused _ _ _ Hfresh), values_snoc, find_snoc.
  reflexivity.
Qed.

Lemma createUser_getUserByEmail_witness :
  unused "u2" (users sample_registered)
  /\ option_map user_id
       (getUserByEmail
          (snd (createUser (at_time "u2" 9)
                  {| iu_email := "a@example.org"; iu_password := "y";
                     iu_name := "B"; iu_role := Omitted |} sample_registered))
          "a@example.org") = Some "u1".
Proof.
  split; [reflexivity |].
  rewrite (createUser_getUserByEmail (at_time "u2" 9) _ sample_registered
             "a@example.org" eq_refl).
  reflexivity.
Defined.

(** ** Reading documents and versions *)

(** X3. [getDocumentVersions s id] lists exactly the stored rows whose
    [documentId] is [id], each as often as it is stored, ordered by version
    number descending. *)
Theorem getDocumentVersions_sorted :
  forall s id,
    Permutation (getDocumentVersions s id) (version_rows s id)
    /\ (forall v, In v (getDocumentVersions s id) <->
          In v (JsMap.values (documentVersions s)) /\ ver_documentId v = id)
    /\ StronglySorted (desc ver_version) (getDocumentVersions s id).
Proof.
  intros s id. rewrite getDocumentVersions_rows.
  split; [apply sort_perm |].
  split; [| apply sort_sorted].
  intros v. rewrite sort_In. unfold version_rows.
  rewrite filter_In, String.eqb_eq. reflexivity.
Qed.

Lemma in_set_entry {V : Type} (m : JsMap.t V) (k k' : string) (v v' : V) :
  In (k', v') (JsMap.set k v m) -> (k', v') = (k, v) \/ In (k', v') m.
Proof.
  induction m as [|[k0 v0] m IH]; simpl.
  - intros [H | []]. left. now symmetry.
  - destruct (String.eqb k k0); simpl.
    + intros [H | H]; [left; now symmetry | auto].
    + intros [H | H]; [auto |]. destruct (IH H); auto.
Qed.

(** X4. The two ways of reading a document agree. In a store whose document
    ids are their keys, a document is listed by [getDocuments] under the
    identifier [id] exactly when [getDocument s id] answers, and then with
    the same document fields and the same author. *)
Theorem getDocuments_getDocument :
  forall s id x,
    JsMap.wf (documents s) ->
    (forall k d, In (k, d) (documents s) -> doc_id d = k) ->
    (In x (getDocuments s) /\ doc_id (dwu_document x) = id
     <-> exists r, getDocument s id = Some r
           /\ dwd_document r = dwu_document x
           /\ dwd_createdBy r = dwu_createdBy x).
Proof.
  intros s id x Hwf Hids. rewrite getDocuments_sort, sort_In, in_collect.
  unfold getDocument. split.
  - intros [[d [Hin Hx]] Hid]. apply with_author_Some in Hx.
    destruct Hx as [Hd Hu]. apply in_values_entry in Hin.
    destruct Hin as [k Hin]. pose proof (Hids _ _ Hin) as Hk.
    assert (Hkid : k = id) by (rewrite <- Hk, <- Hd; exact Hid).
    rewrite Hkid in Hin.
    rewrite (JsMapFacts.In_get _ _ _ Hwf Hin), Hu.
    eexists. split; [reflexivity |]. simpl. auto.
  - intros [r [Hr [Hd Hu]]].
    destruct (JsMap.get id (documents s)) as [d|] eqn:Hget; [| discriminate].
    destruct (getUser s (doc_createdBy d)) as [u|] eqn:Hgu; [| discriminate].
    injection Hr as <-. simpl in Hd, Hu.
    apply JsMapFacts.get_Some_In in Hget. split.
    + exists d. split; [apply in_values_entry; eauto |].
      apply with_author_Some. rewrite <- Hu. auto.
    + rewrite <- Hd. now apply Hids.
Qed.

Lemma getDocuments_getDocument_witness :
  JsMap.wf (documents sample_two)
  /\ (exists x, In x (getDocuments sample_two)
        /\ doc_id (dwu_document x) = "d2"
        /\ doc_title (dwu_document x) = "Release Notes").
Proof.
  assert (Hwf : JsMap.wf (documents sample_two))
    by (unfold JsMap.wf; simpl;
        repeat (constructor; [simpl; intuition discriminate |]); constructor).
  split; [exact Hwf |].
  destruct (getDocument sample_two "d2") as [r|] eqn:E; [| discriminate E].
  exists {| dwu_document := dwd_document r; dwu_createdBy := dwd_createdBy r |}.
  assert (Hids : forall k d, In (k, d) (documents sample_two) -> doc_id d = k).
  { intros k d [H | [H | []]]; injection H as <- <-; reflexivity. }
  destruct (getDocuments_getDocument sample_two "d2"
              {| dwu_document := dwd_document r;
                 dwu_createdBy := dwd_createdBy r |} Hwf Hids) as [_ H].
  destruct H as [Hin Hid].
  - exists r. rewrite E. repeat split.
  - split; [exact Hin |]. split; [exact Hid |].
    injection E as <-. reflexivity.
Defined.

(** ** Deleting and updating: what is left alone *)

Lemma deleteDocument_present (id : string) (s : MemStorage) (doc : Document) :
  JsMap.get id (documents s) = Some doc ->
  deleteDocument id s =
  (true,
   {| users := users s;
      documents := JsMap.delete id (documents s);
      documentVersions :=
        JsMap.delete_loop
          (fun version => String.eqb (ver_documentId version) id)
          (JsMap.entries (documentVersions s)) (documentVersions s);
      activities :=
        JsMap.delete_loop
          (fun activity => strict_eq (act_documentId activity) id)
          (JsMap.entries (activities s)) (activities s) |}).
Proof. intros H. unfold deleteDocument. now rewrite H. Qed.

(** X5. Deleting twice: whatever the first [deleteDocument id] did, a second
    one returns [false] and changes nothing. *)
Theorem deleteDocument_twice :
  forall id s,
    deleteDocument id (snd (deleteDocument id s))
    = (false, snd (deleteDocument id s)).
Proof.
  intros id s.
  destruct (JsMap.get id (documents s)) as [doc|] eqn:Hget.
  - rewrite (deleteDocument_present _ _ _ Hget). simpl.
    unfold deleteDocument at 1. simpl.
    now rewrite JsMapFacts.get_delete_eq.
  - unfold deleteDocument at 2 3. rewrite Hget. simpl.
    unfold deleteDocument. now rewrite Hget.
Qed.

Lemma version_rows_filtered (s s' : MemStorage) (id k : string) :
  documentVersions s' =
    filter (fun e => negb (String.eqb (ver_documentId (snd e)) id))
      (documentVersions s) ->
  k <> id ->
  version_rows s' k = version_rows s k.
Proof.
  intros H Hne. unfold version_rows, JsMap.values. rewrite H. clear H.
  induction (documentVersions s) as [|[k0 v] m IH]; simpl; [reflexivity |].
  destruct (String.eqb (ver_documentId v) id) eqn:E; simpl.
  - apply String.eqb_eq in E.
    destruct (String.eqb (ver_documentId v) k) eqn:E'; [| exact IH].
    apply String.eqb_eq in E'. congruence.
  - now rewrite IH.
Qed.

(** X6. [deleteDocument id] leaves every other document as it was: for
    [k <> id], [getDocument k] (the document, its author and its version
    list) is the same before and after, and so are the users. *)
Theorem deleteDocument_frame :
  forall id k s,
    wf_store s ->
    k <> id ->
    getDocument (snd (deleteDocument id s)) k = getDocument s k
    /\ getDocumentVersions (snd (deleteDocument id s)) k
       = getDocumentVersions s k
    /\ users (snd (deleteDocument id s)) = users s.
Proof.
  intros id k s (_ & _ & HwfV & _) Hne.
  destruct (JsMap.get id (documents s)) as [doc|] eqn:Hget.
  - rewrite (deleteDocument_present _ _ _ Hget). simpl snd.
    match goal with |- context [getDocument ?st k] => set (s' := st) end.
    assert (Hrows : version_rows s' k = version_rows s k).
    { apply (version_rows_filtered s s' id k); [| exact Hne].
      unfold s'. simpl. rewrite (JsMapFacts.delete_loop_wf _ _ HwfV).
      reflexivity. }
    assert (Hv : getDocumentVersions s' k = getDocumentVersions s k)
      by (rewrite !getDocumentVersions_rows; now rewrite Hrows).
    split; [| split; [exact Hv | reflexivity]].
    unfold getDocument. rewrite Hv. unfold getUser. simpl.
    rewrite JsMapFacts.get_delete_ne by congruence. reflexivity.
  - unfold deleteDocument. rewrite Hget. simpl. auto.
Qed.

Lemma deleteDocument_frame_witness :
  wf_store sample_two
  /\ "d1" <> "d2"
  /\ getDocument (snd (deleteDocument "d2" sample_two)) "d1"
     = getDocument sample_two "d1".
Proof.
  assert (Hwf : wf_store sample_two) by solve_wf.
  assert (Hne : "d1" <> "d2") by discriminate.
  split; [exact Hwf |]. split; [exact Hne |].
  exact (proj1 (deleteDocument_frame "d2" "d1" sample_two Hwf Hne)).
Defined.

(** X7. [updateDocument id] leaves every other document as it was: for
    [k <> id], [getDocument k] is the same before and after (document,
    author and version list), and the users are untouched. The row's
    identifier must be unused, or [set] would overwrite a row. *)
Theorem updateDocument_frame :
  forall rt rtV rtA id updates updatedBy k s,
    unused (randomUUID rtV) (documentVersions s) ->
    k <> id ->
    getDocument (snd (updateDocument rt rtV rtA id updates updatedBy s)) k
    = getDocument s k
    /\ users (snd (updateDocument rt rtV rtA id updates updatedBy s))
       = users s.
Proof.
  intros rt rtV rtA id updates updatedBy k s Hv Hne.
  destruct (JsMap.get id (documents s)) as [doc|] eqn:Hget.
  - set (s' := snd (updateDocument rt rtV rtA id updates updatedBy s)).
    assert (Hrow : exists row,
               documentVersions s'
               = documentVersions s ++ [(randomUUID rtV, row)]
               /\ ver_documentId row = id).
    { unfold s', updateDocument. rewrite Hget. simpl.
      rewrite (JsMapFacts.set_unused _ _ _ Hv). eexists.
      split; reflexivity. }
    destruct Hrow as (row & Hrows & Hrid).
    assert (Hget' : JsMap.get k (documents s') = JsMap.get k (documents s)).
    { unfold s', updateDocument. rewrite Hget. simpl.
      apply JsMapFacts.get_set_ne. congruence. }
    assert (Hu : users s' = users s).
    { unfold s', updateDocument. rewrite Hget. reflexivity. }
    split; [| exact Hu].
    unfold getDocument, getUser. rewrite Hget', Hu.
    rewrite !getDocumentVersions_rows.
    rewrite (version_rows_snoc s s' _ row k Hrows), Hrid.
    assert (E : String.eqb id k = false) by (apply String.eqb_neq; congruence).
    rewrite E, app_nil_r. reflexivity.
  - unfold updateDocument. rewrite Hget. auto.
Qed.

Lemma updateDocument_frame_witness :
  unused "v7" (documentVersions sample_two)
  /\ "d2" <> "d1"
  /\ getDocument
       (snd (updateDocument (at_time "-" 8) (at_time "v7" 8) (at_time "a7" 8)
               "d1" blank_summary "u1" sample_two)) "d2"
     = getDocument sample_two "d2".
Proof.
  assert (Hne : "d2" <> "d1") by discriminate.
  split; [reflexivity |]. split; [exact Hne |].
  exact (proj1 (updateDocument_frame (at_time "-" 8) (at_time "v7" 8)
                  (at_time "a7" 8) "d1" blank_summary "u1" "d2" sample_two
                  eq_refl Hne)).
Defined.

(** X8. An update that names no field still counts as an update: the
    document keeps its title, content, summary, tags, id, author and
    creation time, its version goes up by one and [updatedAt] becomes the
    time of the call; the appended row bears the new number and the old
    document's text (summary and tags as normalised by
    [createDocumentVersion]). *)
Theorem updateDocument_no_changes :
  forall rt rtV rtA id updatedBy s doc,
    JsMap.get id (documents s) = Some doc ->
    unused (randomUUID rtV) (documentVersions s) ->
    exists doc' row,
      fst (updateDocument rt rtV rtA id no_changes updatedBy s) = Some doc'
      /\ doc' =
         {| doc_id := doc_id doc; doc_title := doc_title doc;
            doc_content := doc_content doc; doc_summary := doc_summary doc;
            doc_tags := doc_tags doc; doc_createdBy := doc_createdBy doc;
            doc_createdAt := doc_createdAt doc; doc_updatedAt := newDate rt;
            doc_version := doc_version doc + 1 |}
      /\ documentVersions
           (snd (updateDocument rt rtV rtA id no_changes updatedBy s))
         = documentVersions s ++ [(randomUUID rtV, row)]
      /\ ver_version row = doc_version doc + 1
      /\ same_text_normalised row doc.
Proof.
  intros rt rtV rtA id updatedBy s doc Hget Hv.
  unfold updateDocument. rewrite Hget. simpl.
  rewrite (JsMapFacts.set_unused _ _ _ Hv).
  do 2 eexists. split; [reflexivity |]. split; [reflexivity |].
  split; [reflexivity |]. repeat split.
Qed.

Lemma updateDocument_no_changes_witness :
  exists doc',
    fst (updateDocument (at_time "-" 8) (at_time "v7" 8) (at_time "a7" 8)
           "d2" no_changes "u1" sample_two) = Some doc'
    /\ doc_title doc' = "Release Notes"
    /\ doc_version doc' = 2
    /\ doc_updatedAt doc' = 8.
Proof.
  destruct (JsMap.get "d2" (documents sample_two)) as [doc|] eqn:E;
    [| discriminate E].
  destruct (updateDocument_no_changes (at_time "-" 8) (at_time "v7" 8)
              (at_time "a7" 8) "d2" "u1" sample_two doc E eq_refl)
    as (doc' & row & Hfst & Hdoc & _).
  exists doc'. split; [exact Hfst |].
  injection E as <-. rewrite Hdoc. repeat split.
Defined.

(** X9. One operation, whichever it is, moves a stored document's version by
    at most one step forward: a document stored under [k] before and after
    is either unchanged or was the target of an [updateDocument], and then
    its version is exactly one higher; its id, author and creation time never
    change. *)
Theorem exec_version_step :
  forall o s k d d',
    fresh o s ->
    JsMap.get k (documents s) = Some d ->
    JsMap.get k (documents (exec o s)) = Some d' ->
    (d' = d \/ (is_update_of k o /\ doc_version d' = doc_version d + 1))
    /\ doc_id d' = doc_id d
    /\ doc_createdBy d' = doc_createdBy d
    /\ doc_createdAt d' = doc_createdAt d.
Proof.
  intros o s k d d' Hfresh Hget Hget'.
  assert (Hsame : JsMap.get k (documents (exec o s)) = JsMap.get k (documents s)
                  -> (d' = d \/ (is_update_of k o
                                 /\ doc_version d' = doc_version d + 1))
                     /\ doc_id d' = doc_id d
                     /\ doc_createdBy d' = doc_createdBy d
                     /\ doc_createdAt d' = doc_createdAt d).
  { intros E. rewrite E, Hget in Hget'. injection Hget' as <-. auto. }
  destruct o as [rt u | rt rtV rtA ins by_ | rt rtV rtA id u by_ | id
                | rt v | rt ia]; simpl in *.
  - now apply Hsame.
  - apply Hsame. destruct Hfresh as [Hd _].
    apply JsMapFacts.get_set_ne. intros E. rewrite <- E in Hget.
    unfold unused in Hd. congruence.
  - unfold updateDocument in *.
    destruct (JsMap.get id (documents s)) as [doc|] eqn:Hid;
      [| now apply Hsame].
    simpl in *.
    destruct (String.eqb id k) eqn:E.
    + apply String.eqb_eq in E. subst k.
      rewrite JsMapFacts.get_set_eq in Hget'. injection Hget' as <-.
      assert (doc = d) by congruence. subst doc. simpl.
      split; [right |]; auto.
    + apply String.eqb_neq in E. apply Hsame.
      now apply JsMapFacts.get_set_ne.
  - unfold deleteDocument in *.
    destruct (JsMap.get id (documents s)) as [doc|] eqn:Hid;
      [| now apply Hsame].
    simpl in *. apply Hsame.
    destruct (String.eqb id k) eqn:E.
    + apply String.eqb_eq in E. subst k.
      now rewrite JsMapFacts.get_delete_eq in Hget'.
    + apply String.eqb_neq in E. now apply JsMapFacts.get_delete_ne.
  - now apply Hsame.
  - now apply Hsame.
Qed.

Lemma exec_version_step_witness :
  exists d d',
    JsMap.get "d1" (documents sample_created) = Some d
    /\ JsMap.get "d1" (documents (exec op_retitle sample_created)) = Some d'
    /\ doc_version d' = doc_version d + 1
    /\ doc_createdBy d' = doc_createdBy d.
Proof.
  destruct (JsMap.get "d1" (documents sample_created)) as [d|] eqn:E;
    [| discriminate E].
  destruct (JsMap.get "d1" (documents (exec op_retitle sample_created)))
    as [d'|] eqn:E'; [| discriminate E'].
  exists d, d'. split; [reflexivity |]. split; [reflexivity |].
  assert (Hfresh : fresh op_retitle sample_created) by (split; reflexivity).
  destruct (exec_version_step op_retitle sample_created "d1" d d' Hfresh E E')
    as (_ & _ & Hby & _).
  split; [| exact Hby].
  injection E as <-. injection E' as <-. reflexivity.
Defined.



(** ** Invariants of the reachable states *)

Lemma in_delete_loop_entry {V : Type} (p : V -> bool) (m : JsMap.t V)
  (e : string * V) :
  In e (JsMap.delete_loop p (JsMap.entries m) m) ->
  In e m /\ p (snd e) = false.
Proof.
  intros H. split; [| now apply (JsMapFacts.delete_loop_none p m)].
  rewrite JsMapFacts.delete_loop_filter in H. now apply filter_In in H.
Qed.

Lemma in_delete_entry {V : Type} (k : string) (m : JsMap.t V)
  (e : string * V) :
  In e (JsMap.delete k m) -> In e m.
Proof. unfold JsMap.delete. intros H. now apply filter_In in H. Qed.

Lemma ids_ok_exec (o : Op) (s : MemStorage) : ids_ok s -> ids_ok (exec o s).
Proof.
  intros (Hu & Hd & Hv & Ha).
  destruct o as [rt u | rt rtV rtA ins by_ | rt rtV rtA id u by_ | id
                | rt v | rt ia]; simpl.
  - repeat split; simpl; auto.
    intros k x Hin. apply in_set_entry in Hin.
    destruct Hin as [[= -> ->] | Hin]; [reflexivity | auto].
  - repeat split; simpl; auto; intros k x Hin; apply in_set_entry in Hin;
      (destruct Hin as [[= -> ->] | Hin]; [reflexivity | auto]).
  - unfold updateDocument.
    destruct (JsMap.get id (documents s)) as [doc|] eqn:Hget;
      [| repeat split; assumption].
    apply JsMapFacts.get_Some_In, Hd in Hget.
    repeat split; simpl; auto; intros k x Hin; apply in_set_entry in Hin;
      (destruct Hin as [[= -> ->] | Hin]; [simpl; auto | auto]).
  - unfold deleteDocument.
    destruct (JsMap.get id (documents s)) as [doc|] eqn:Hget;
      [| repeat split; assumption].
    repeat split; simpl; auto; intros k x Hin.
    + apply in_delete_entry in Hin. auto.
    + apply in_delete_loop_entry in Hin. destruct Hin as [Hin _]. auto.
    + apply in_delete_loop_entry in Hin. destruct Hin as [Hin _]. auto.
  - repeat split; simpl; auto.
    intros k x Hin. apply in_set_entry in Hin.
    destruct Hin as [[= -> ->] | Hin]; [reflexivity | auto].
  - repeat split; simpl; auto.
    intros k x Hin. apply in_set_entry in Hin.
    destruct Hin as [[= -> ->] | Hin]; [reflexivity | auto].
Qed.

(** X11. In every state reached by the store's methods, every user,
    document, version row and activity is stored under its own [id], and no
    two entries of a map share a key. *)
Theorem ids_reachable :
  forall s, reachable any_op s -> ids_ok s /\ wf_store s.
Proof.
  intros s Hreach. split; [| exact (wf_store_reachable _ _ Hreach)].
  induction Hreach as [|s o Hreach IH _ _].
  - repeat split; intros k x [].
  - now apply ids_ok_exec.
Qed.

Lemma ids_reachable_witness :
  reachable any_op sample_two
  /\ (forall k d, In (k, d) (documents sample_two) -> doc_id d = k).
Proof.
  assert (Hreach : reachable any_op sample_two)
    by (unfold sample_two, sample_created, sample_registered; solve_reachable).
  split; [exact Hreach |].
  destruct (ids_reachable sample_two Hreach) as [(_ & Hd & _) _]. exact Hd.
Defined.

Lemma get_set_mono {V : Type} (m : JsMap.t V) (k k' : string) (v : V) :
  JsMap.get k' m <> None -> JsMap.get k' (JsMap.set k v m) <> None.
Proof.
  intros H. destruct (String.eqb k k') eqn:E.
  - apply String.eqb_eq in E. subst. now rewrite JsMapFacts.get_set_eq.
  - apply String.eqb_neq in E. now rewrite JsMapFacts.get_set_ne.
Qed.

Lemma or_null_Some (k d : string) : or_null (Given (Some k)) = Some d -> d = k.
Proof.
  unfold or_null. destruct (String.eqb k EmptyString); congruence.
Qed.

Lemma no_orphans_add (s : MemStorage) (id vid aid : string)
  (doc : Document) (row : DocumentVersion) (act : Activity) :
  no_orphans s ->
  ver_documentId row = id ->
  act_documentId act = or_null (Given (Some id)) ->
  no_orphans
    {| users := users s;
       documents := JsMap.set id doc (documents s);
       documentVersions := JsMap.set vid row (documentVersions s);
       activities := JsMap.set aid act (activities s) |}.
Proof.
  intros [Hv Ha] Hrow Hact. split; simpl.
  - intros v Hin. apply in_values_set in Hin. destruct Hin as [-> | Hin].
    + rewrite Hrow, JsMapFacts.get_set_eq. discriminate.
    + now apply get_set_mono, Hv.
  - intros a d Hin Hd. apply in_values_set in Hin. destruct Hin as [-> | Hin].
    + rewrite Hact in Hd. apply or_null_Some in Hd. subst d.
      rewrite JsMapFacts.get_set_eq. discriminate.
    + apply get_set_mono. now apply (Ha a).
Qed.

Lemma no_orphans_exec (o : Op) (s : MemStorage) :
  document_op o = true -> no_orphans s -> no_orphans (exec o s).
Proof.
  intros Hop Hok.
  destruct o as [rt u | rt rtV rtA ins by_ | rt rtV rtA id u by_ | id
                | rt v | rt ia]; try discriminate Hop; simpl.
  - exact Hok.
  - now apply no_orphans_add.
  - unfold updateDocument.
    destruct (JsMap.get id (documents s)) as [doc|]; [| exact Hok].
    simpl. now apply no_orphans_add.
  - unfold deleteDocument.
    destruct (JsMap.get id (documents s)) as [doc|]; [| exact Hok].
    destruct Hok as [Hv Ha]. split; simpl.
    + intros v Hin. apply in_values_entry in Hin. destruct Hin as [k Hin].
      apply in_delete_loop_entry in Hin. destruct Hin as [Hin Hp].
      simpl in Hp. apply String.eqb_neq in Hp.
      rewrite JsMapFacts.get_delete_ne by congruence.
      apply Hv, in_values_entry. eauto.
    + intros a d Hin Hd. apply in_values_entry in Hin. destruct Hin as [k Hin].
      apply in_delete_loop_entry in Hin. destruct Hin as [Hin Hp].
      simpl in Hp. rewrite Hd in Hp. simpl in Hp. apply String.eqb_neq in Hp.
      rewrite JsMapFacts.get_delete_ne by congruence.
      apply (Ha a); [apply in_values_entry; eauto | exact Hd].
Qed.

Lemma no_orphans_new : no_orphans newMemStorage.
Proof. split; [intros v [] | intros a d []]. Qed.

Lemma no_orphans_run (s : MemStorage) :
  reachable document_op s -> no_orphans s.
Proof.
  induction 1 as [|s o Hreach IH Hop _];
    [apply no_orphans_new | now apply no_orphans_exec].
Qed.

(** X12. The cascade keeps the store free of orphans: in every state reached
    by [createUser], [createDocument], [updateDocument] and
    [deleteDocument], every version row and every activity that names a
    document names one that is stored. *)
Theorem no_orphans_reachable :
  forall s, reachable document_op s -> no_orphans s.
Proof.
  intros s Hreach. induction Hreach as [|s o Hreach IH Hop _].
  - apply no_orphans_new.
  - now apply no_orphans_exec.
Qed.

Lemma no_orphans_reachable_witness :
  reachable document_op (exec (OpDeleteDocument "d1") sample_two)
  /\ no_orphans (exec (OpDeleteDocument "d1") sample_two)
  /\ map ver_documentId
       (JsMap.values
          (documentVersions (exec (OpDeleteDocument "d1") sample_two)))
     = ["d2"].
Proof.
  assert (Hreach : reachable document_op
                     (exec (OpDeleteDocument "d1") sample_two))
    by (unfold sample_two, sample_created, sample_registered; solve_reachable).
  split; [exact Hreach |].
  split; [exact (no_orphans_reachable _ Hreach) | reflexivity].
Defined.

Lemma log_ok_ext (s s' : MemStorage) :
  documents s' = documents s ->
  documentVersions s' = documentVersions s ->
  log_ok s -> log_ok s'.
Proof.
  intros Hd Hv [Hdocs Hnone]. split.
  - intros k d Hget. rewrite Hd in Hget.
    rewrite (version_rows_same s s' k Hv). now apply Hdocs.
  - intros k Hget. rewrite Hd in Hget.
    rewrite (version_rows_same s s' k Hv). now apply Hnone.
Qed.

Lemma version_rows_deleted (s s' : MemStorage) (id : string) :
  documentVersions s' =
    filter (fun e => negb (String.eqb (ver_documentId (snd e)) id))
      (documentVersions s) ->
  version_rows s' id = [].
Proof.
  intros H. unfold version_rows. apply filter_none.
  intros v Hv. rewrite H in Hv. apply in_values_entry in Hv.
  destruct Hv as [k Hin]. apply filter_In in Hin. destruct Hin as [_ Hneg].
  simpl in Hneg. now apply negb_true_iff in Hneg.
Qed.

Lemma log_ok_deleteDocument (id : string) (s : MemStorage) :
  JsMap.wf (documentVersions s) ->
  log_ok s -> log_ok (snd (deleteDocument id s)).
Proof.
  intros Hwf Hok.
  destruct (JsMap.get id (documents s)) as [doc|] eqn:Hget.
  - rewrite (deleteDocument_present _ _ _ Hget). simpl snd.
    match goal with |- log_ok ?st => set (s' := st) end.
    assert (Hrows : documentVersions s' =
              filter (fun e => negb (String.eqb (ver_documentId (snd e)) id))
                (documentVersions s)).
    { unfold s'. simpl. rewrite (JsMapFacts.delete_loop_wf _ _ Hwf).
      reflexivity. }
    assert (Hdocs' : documents s' = JsMap.delete id (documents s))
      by reflexivity.
    destruct Hok as [Hdocs Hnone]. split.
    + intros k d Hk. rewrite Hdocs' in Hk.
      destruct (String.eqb id k) eqn:E.
      * apply String.eqb_eq in E. subst k.
        now rewrite JsMapFacts.get_delete_eq in Hk.
      * apply String.eqb_neq in E.
        rewrite JsMapFacts.get_delete_ne in Hk by assumption.
        rewrite (version_rows_filtered s s' id k Hrows) by congruence.
        now apply Hdocs.
    + intros k Hk. rewrite Hdocs' in Hk.
      destruct (String.eqb id k) eqn:E.
      * apply String.eqb_eq in E. subst k.
        exact (version_rows_deleted s s' id Hrows).
      * apply String.eqb_neq in E.
        rewrite JsMapFacts.get_delete_ne in Hk by assumption.
        rewrite (version_rows_filtered s s' id k Hrows) by congruence.
        now apply Hnone.
  - unfold deleteDocument. now rewrite Hget.
Qed.

Lemma log_ok_document_op (s : MemStorage) :
  reachable document_op s -> log_ok s.
Proof.
  intros Hreach.
  assert (Hwf : wf_store s) by exact (wf_store_reachable _ _ Hreach).
  revert Hwf.
  induction Hreach as [|s o Hreach IH Hop Hfresh]; intros _;
    [apply log_ok_new |].
  pose proof (wf_store_reachable _ _ Hreach) as (_ & _ & HwfV & _).
  specialize (IH (wf_store_reachable _ _ Hreach)).
  destruct o as [rt u | rt rtV rtA ins by_ | rt rtV rtA id u by_ | id
                | rt v | rt ia]; try discriminate Hop; simpl in *.
  - exact (log_ok_ext s _ eq_refl eq_refl IH).
  - destruct Hfresh as (Hd & Hv & _). now apply log_ok_createDocument.
  - destruct Hfresh as (Hv & _). now apply log_ok_updateDocument.
  - now apply log_ok_deleteDocument.
Qed.

(** X13. The counting invariant of the version log survives deletions: in
    every state reached by [createUser], [createDocument], [updateDocument]
    and [deleteDocument], a stored document of version [n] has exactly [n]
    rows, listed by [getDocumentVersions] with the numbers [n, ..., 1], and
    an identifier without a document has no rows at all. *)
Theorem version_log_with_deletes :
  forall s k,
    reachable document_op s ->
    match JsMap.get k (documents s) with
    | Some d =>
        exists n : nat,
          doc_version d = Z.of_nat n
          /\ (1 <= n)%nat
          /\ map ver_version (getDocumentVersions s k) = rev (versions_upto n)
    | None => getDocumentVersions s k = []
    end.
Proof.
  intros s k Hreach.
  destruct (log_ok_document_op _ Hreach) as [Hdocs Hnone].
  destruct (JsMap.get k (documents s)) as [d|] eqn:Hget.
  - destruct (Hdocs _ _ Hget) as (n & rows & row & Hn & _ & Hmap & _).
    exists (S n). split; [exact Hn |]. split; [lia |].
    rewrite getDocumentVersions_rows, (sort_versions_upto _ _ Hmap).
    now rewrite map_rev, Hmap.
  - rewrite getDocumentVersions_rows, (Hnone _ Hget). reflexivity.
Qed.

Lemma version_log_with_deletes_witness :
  reachable document_op (exec (OpDeleteDocument "d2") sample_two)
  /\ getDocumentVersions (exec (OpDeleteDocument "d2") sample_two) "d2" = []
  /\ map ver_version
       (getDocumentVersions (exec (OpDeleteDocument "d2") sample_two) "d1")
     = [2; 1].
Proof.
  assert (Hreach : reachable document_op
                     (exec (OpDeleteDocument "d2") sample_two))
    by (unfold sample_two, sample_created, sample_registered; solve_reachable).
  split; [exact Hreach |].
  split.
  - exact (version_log_with_deletes _ "d2" Hreach).
  - reflexivity.
Defined.

(** ** Listings after a write *)

Lemma sort_head_max {A : Type} (key : A -> Z) (l : list A) (x : A) :
  In x l ->
  (forall y, In y l -> y = x \/ key y < key x) ->
  exists rest, sort (by_desc key) l = x :: rest.
Proof.
  intros Hin Hmax.
  pose proof (sort_sorted key l) as Hs.
  assert (Hx : In x (sort (by_desc key) l)) by now apply sort_In.
  assert (Hall : forall y, In y (sort (by_desc key) l) ->
                   y = x \/ key y < key x)
    by (intros y Hy; apply Hmax; now apply sort_In in Hy).
  destruct (sort (by_desc key) l) as [|y rest]; [contradiction |].
  exists rest. f_equal.
  destruct (Hall y (or_introl eq_refl)) as [-> | Hlt]; [reflexivity |].
  inversion Hs as [|? ? _ Hrest]; subst. rewrite Forall_forall in Hrest.
  destruct Hx as [-> | Hx]; [reflexivity |].
  apply Hrest in Hx. unfold desc in Hx. lia.
Qed.

Lemma in_set_entry_wf {V : Type} (m : JsMap.t V) (k k' : string) (v v' : V) :
  JsMap.wf m ->
  In (k', v') (JsMap.set k v m) ->
  (k', v') = (k, v) \/ (In (k', v') m /\ k' <> k).
Proof.
  unfold JsMap.wf. induction m as [|[k0 v0] m IH]; simpl; intros Hnd.
  - intros [H | []]. left. now symmetry.
  - inversion Hnd as [|? ? Hnotin Hnd']; subst.
    destruct (String.eqb k k0) eqn:E; simpl.
    + apply String.eqb_eq in E. subst k0.
      intros [H | H]; [left; now symmetry |]. right. split; [now right |].
      intros ->. apply Hnotin. unfold JsMap.keys.
      change k with (fst (k, v')). now apply in_map.
    + apply String.eqb_neq in E.
      intros [H | H].
      * right. split; [now left |]. injection H as <- _. congruence.
      * destruct (IH Hnd' H) as [Heq | [Hin Hne]]; [now left |].
        right. split; [now right | exact Hne].
Qed.

(** X14. An edit brings a document to the top of the list. If the document
    [id] is stored with a stored author and every other document was last
    updated before the time of the call, then after [updateDocument id] the
    updated document is the first element of [getDocuments]. *)
Theorem updateDocument_listed_first :
  forall rt rtV rtA id updates updatedBy s doc author,
    JsMap.wf (documents s) ->
    JsMap.get id (documents s) = Some doc ->
    getUser s (doc_createdBy doc) = Some author ->
    (forall k d, In (k, d) (documents s) -> k <> id ->
       doc_updatedAt d < newDate rt) ->
    exists doc' rest,
      fst (updateDocument rt rtV rtA id updates updatedBy s) = Some doc'
      /\ getDocuments (snd (updateDocument rt rtV rtA id updates updatedBy s))
         = {| dwu_document := doc'; dwu_createdBy := author |} :: rest.
Proof.
  intros rt rtV rtA id updates updatedBy s doc author Hwf Hget Hauthor Hold.
  unfold updateDocument. rewrite Hget.
  match goal with
  | |- exists d' rest, fst (Some ?d, _) = _ /\ _ =>
      remember d as doc' eqn:Edoc'
  end.
  match goal with
  | |- exists d' rest, _ /\ getDocuments (snd (_, ?st)) = _ =>
      set (s' := st)
  end.
  assert (Hdocs : documents s' = JsMap.set id doc' (documents s))
    by reflexivity.
  assert (Hjoin : forall d, with_author s' d = with_author s d)
    by reflexivity.
  assert (Hby : doc_createdBy doc' = doc_createdBy doc
                /\ doc_updatedAt doc' = newDate rt)
    by (subst doc'; split; reflexivity).
  destruct Hby as [Hby Hat].
  exists doc'. simpl fst. simpl snd. rewrite getDocuments_sort.
  destruct (sort_head_max updated
              (collect (with_author s') (JsMap.values (documents s')))
              {| dwu_document := doc'; dwu_createdBy := author |})
    as [rest Hrest].
  - apply in_collect. exists doc'. split.
    + rewrite Hdocs. apply in_values_entry. exists id.
      apply JsMapFacts.get_Some_In, JsMapFacts.get_set_eq.
    + rewrite Hjoin. unfold with_author. now rewrite Hby, Hauthor.
  - intros y Hy. apply in_collect in Hy. destruct Hy as [d [Hin Hy]].
    rewrite Hjoin in Hy. rewrite Hdocs in Hin.
    apply in_values_entry in Hin. destruct Hin as [k Hin].
    apply (in_set_entry_wf _ _ _ _ _ Hwf) in Hin.
    destruct Hin as [[= -> ->] | [Hin Hne]].
    + left. unfold with_author in Hy. rewrite Hby, Hauthor in Hy.
      now injection Hy as <-.
    + right. apply with_author_Some in Hy. destruct Hy as [Hd _].
      unfold updated. simpl. rewrite Hd, Hat. now apply (Hold k).
  - exists rest. split; [reflexivity | exact Hrest].
Qed.

Lemma updateDocument_listed_first_witness :
  exists doc' rest,
    fst (updateDocument (at_time "-" 8) (at_time "v7" 8) (at_time "a7" 8)
           "d2" no_changes "u1" sample_two) = Some doc'
    /\ getDocuments
         (snd (updateDocument (at_time "-" 8) (at_time "v7" 8) (at_time "a7" 8)
                 "d2" no_changes "u1" sample_two))
       = rest
    /\ option_map (fun x => doc_id (dwu_document x)) (hd_error rest)
       = Some "d2".
Proof.
  assert (Hwf : JsMap.wf (documents sample_two))
    by (unfold JsMap.wf; simpl;
        repeat (constructor; [simpl; intuition discriminate |]); constructor).
  destruct (JsMap.get "d2" (documents sample_two)) as [doc|] eqn:E;
    [| discriminate E].
  destruct (getUser sample_two (doc_createdBy doc)) as [author|] eqn:Ea;
    [| injection E as <-; discriminate Ea].
  assert (Hold : forall k d, In (k, d) (documents sample_two) -> k <> "d2" ->
                   doc_updatedAt d < newDate (at_time "-" 8)).
  { intros k d [H | [H | []]] Hne; injection H as <- <-;
      [reflexivity | contradiction]. }
  destruct (updateDocument_listed_first (at_time "-" 8) (at_time "v7" 8)
              (at_time "a7" 8) "d2" no_changes "u1" sample_two doc author
              Hwf E Ea Hold) as (doc' & rest & Hfst & Hlist).
  exists doc'. eexists. split; [exact Hfst |]. split; [reflexivity |].
  rewrite Hlist. simpl. f_equal.
  vm_compute in Hfst. injection Hfst as <-. reflexivity.
Defined.

(** ** Edge cases of search and of the activity feed *)

Lemma filter_all {A : Type} (p : A -> bool) (l : list A) :
  (forall x, In x l -> p x = true) -> filter p l = l.
Proof.
  induction l as [|x l IH]; simpl; intros H; [reflexivity |].
  rewrite (H x) by now left. f_equal. apply IH. intros; apply H; now right.
Qed.

(** X15. The empty query matches everything: for a lower-casing that keeps
    the empty string empty, [searchDocuments s ""] is [getDocuments s], also
    for documents without summary or tags. *)
Theorem searchDocuments_empty_query :
  forall (toLowerCase : string -> string) s,
    toLowerCase EmptyString = EmptyString ->
    searchDocuments toLowerCase s EmptyString = getDocuments s.
Proof.
  intros toLowerCase s Hempty. unfold searchDocuments. cbv zeta.
  apply filter_all. intros x _. unfold search_hit. cbv zeta.
  rewrite Hempty.
  assert (H : includes (toLowerCase (doc_title (dwu_document x))) EmptyString
              = true)
    by (apply includes_spec, Substring_empty_l).
  now rewrite H.
Qed.

Lemma searchDocuments_empty_query_witness :
  ascii_toLowerCase EmptyString = EmptyString
  /\ List.length (searchDocuments ascii_toLowerCase sample_two EmptyString)
     = 2%nat.
Proof.
  split; [reflexivity |].
  rewrite (searchDocuments_empty_query ascii_toLowerCase sample_two eq_refl).
  reflexivity.
Defined.

(** X16. The activity feed is bounded by its limit: for [0 <= N] the result
    has at most [N] elements and at most as many as there are activities, and
    when [N] is at least the number of activities it holds every activity
    whose user is stored, newest first. Leaving the limit out is a limit
    of 10. *)
Theorem getRecentActivities_bound :
  forall s N,
    0 <= N ->
    (List.length (getRecentActivities s (Some N)) <= Z.to_nat N)%nat
    /\ (List.length (getRecentActivities s (Some N))
        <= List.length (JsMap.values (activities s)))%nat
    /\ (Z.of_nat (List.length (JsMap.values (activities s))) <= N ->
        map awd_activity (getRecentActivities s (Some N))
        = filter (resolvable s)
            (sort (by_desc act_createdAt) (JsMap.values (activities s))))
    /\ getRecentActivities s None = getRecentActivities s (Some 10).
Proof.
  intros s N HN. rewrite (getRecentActivities_firstn s N HN).
  set (sorted := sort (by_desc act_createdAt) (JsMap.values (activities s))).
  assert (Hlen : List.length
                   (collect (with_details s) (firstn (Z.to_nat N) sorted))
                 = List.length
                     (filter (resolvable s) (firstn (Z.to_nat N) sorted))).
  { rewrite <- with_details_activity. now rewrite length_map. }
  pose proof (filter_length_le (resolvable s) (firstn (Z.to_nat N) sorted))
    as Hle.
  rewrite length_firstn in Hle.
  assert (Hs : List.length sorted = List.length (JsMap.values (activities s)))
    by apply sort_length.
  split; [lia |]. split; [lia |]. split; [| reflexivity].
  intros Hall. rewrite with_details_activity.
  rewrite firstn_all2 by lia. reflexivity.
Qed.

Lemma getRecentActivities_bound_witness :
  0 <= 2
  /\ (List.length (getRecentActivities sample_two (Some 2%Z)) <= 2)%nat
  /\ List.length (JsMap.values (activities sample_two)) = 3%nat.
Proof.
  split; [lia |].
  split; [| reflexivity].
  exact (proj1 (getRecentActivities_bound sample_two 2 ltac:(lia))).
Defined.

Lemma slice_0_negative {A : Type} (n : Z) (l : list A) :
  n < 0 ->
  slice 0 n l = firstn (List.length l - Z.to_nat (- n)) l.
Proof.
  intros Hn. unfold slice, slice_index.
  replace (0 <? 0) with false by reflexivity.
  assert (E : (n <? 0) = true) by now apply Z.ltb_lt.
  rewrite E, (Z.min_l 0) by lia. rewrite Z.sub_0_r. simpl skipn.
  f_equal. lia.
Qed.

(** X17. A negative limit does not mean "none": [getRecentActivities s (-k)]
    for [k > 0] leaves out the [k] oldest activities and treats the others
    as usual (all of them gone once [k] reaches the number of activities). *)
Theorem getRecentActivities_negative :
  forall s N,
    N < 0 ->
    getRecentActivities s (Some N) =
    collect (with_details s)
      (firstn (List.length (JsMap.values (activities s)) - Z.to_nat (- N))
         (sort (by_desc act_createdAt) (JsMap.values (activities s)))).
Proof.
  intros s N HN. unfold getRecentActivities.
  rewrite slice_0_negative by exact HN.
  now rewrite sort_length.
Qed.

Lemma getRecentActivities_negative_witness :
  -1 < 0
  /\ map (fun r => act_id (awd_activity r))
       (getRecentActivities sample_two (Some (-1))) = ["a2"; "a9"]
  /\ getRecentActivities sample_two (Some (-3)) = [].
Proof.
  split; [lia |].
  rewrite (getRecentActivities_negative sample_two (-1) ltac:(lia)).
  rewrite (getRecentActivities_negative sample_two (-3) ltac:(lia)).
  split; reflexivity.
Defined.

(** * Properties of the HTTP layer *)

Lemma getDocument_Some (s : MemStorage) (id : string)
  (r : DocumentWithDetails) :
  getDocument s id = Some r ->
  JsMap.get id (documents s) = Some (dwd_document r)
  /\ getUser s (doc_createdBy (dwd_document r)) = Some (dwd_createdBy r).
Proof.
  unfold getDocument.
  destruct (JsMap.get id (documents s)) as [d|]; [| discriminate].
  destruct (getUser s (doc_createdBy d)) as [u|] eqn:E; [| discriminate].
  intros [= <-]. simpl. auto.
Qed.

Lemma outsider_denied (s : MemStorage) (id : string) (user : AuthUser)
  (r : DocumentWithDetails) :
  outsider s id user ->
  getDocument s id = Some r ->
  negb (String.eqb (user_id (dwd_createdBy r)) (au_id user))
  && negb (String.eqb (au_role user) "admin") = true.
Proof.
  intros [Hrole Hauthor] Hr. apply getDocument_Some in Hr.
  destruct Hr as [Hd Hu]. specialize (Hauthor _ _ Hd Hu).
  apply String.eqb_neq in Hrole, Hauthor. now rewrite Hrole, Hauthor.
Qed.

(** X18. A caller who is neither the author of a document nor an admin
    cannot change the store through [PUT] or [DELETE /api/documents/:id],
    whatever the body: both answer 404 (no visible document) or 403 and
    leave every map as it was. *)
Theorem outsider_cannot_write :
  forall rt rtV rtA user id parsed s,
    outsider s id user ->
    snd (put_document rt rtV rtA user id parsed s) = s
    /\ snd (delete_document user id s) = s
    /\ (res_status (fst (put_document rt rtV rtA user id parsed s)) = 403
        \/ res_status (fst (put_document rt rtV rtA user id parsed s)) = 404)
    /\ (res_status (fst (delete_document user id s)) = 403
        \/ res_status (fst (delete_document user id s)) = 404).
Proof.
  intros rt rtV rtA user id parsed s Hout.
  unfold put_document, delete_document.
  destruct (getDocument s id) as [r|] eqn:Hr.
  - rewrite (outsider_denied _ _ _ _ Hout Hr). simpl. auto.
  - simpl. auto.
Qed.

Lemma outsider_cannot_write_witness :
  outsider sample_two "d1" stranger
  /\ snd (delete_document stranger "d1" sample_two) = sample_two
  /\ res_status (fst (delete_document stranger "d1" sample_two)) = 403.
Proof.
  assert (Hout : outsider sample_two "d1" stranger).
  { split; [discriminate |]. intros d author Hd Hu.
    injection Hd as <-. injection Hu as <-. discriminate. }
  split; [exact Hout |].
  destruct (outsider_cannot_write (at_time "-" 8) (at_time "v7" 8)
              (at_time "a7" 8) stranger "d1" None sample_two Hout)
    as (_ & Hs & _ & _).
  split; [exact Hs | reflexivity].
Defined.

(** X19. [DELETE /api/documents/:id] never reaches its "Failed to delete
    document" answer: the status is 200, 403 or 404, never 500. On 200 the
    document is gone with its version rows and its activities; on the other
    two the store is untouched. *)
Theorem delete_document_outcome :
  forall user id s,
    let r := fst (delete_document user id s) in
    let s' := snd (delete_document user id s) in
    (res_status r = 200 \/ res_status r = 403 \/ res_status r = 404)
    /\ (res_status r = 200 ->
        JsMap.get id (documents s') = None
        /\ getDocumentVersions s' id = []
        /\ (forall a, In a (JsMap.values (activities s')) ->
              act_documentId a <> Some id)
        /\ users s' = users s)
    /\ (res_status r <> 200 -> s' = s).
Proof.
  intros user id s. unfold delete_document.
  destruct (getDocument s id) as [doc|] eqn:Hdoc.
  - destruct (negb (String.eqb (user_id (dwd_createdBy doc)) (au_id user))
              && negb (String.eqb (au_role user) "admin")).
    + simpl. split; [auto |]. split; [discriminate | reflexivity].
    + apply getDocument_Some in Hdoc. destruct Hdoc as [Hget _].
      rewrite (deleteDocument_present _ _ _ Hget). simpl.
      split; [auto |]. split; [| congruence].
      intros _. split; [apply JsMapFacts.get_delete_eq |].
      split; [| split; [| reflexivity]].
      * unfold getDocumentVersions. simpl. rewrite filter_none; [reflexivity |].
        intros v Hv. apply in_values_entry in Hv. destruct Hv as [k Hin].
        apply in_delete_loop_entry in Hin. now destruct Hin as [_ Hp].
      * intros a Ha Href. apply in_values_entry in Ha. destruct Ha as [k Hin].
        apply in_delete_loop_entry in Hin. destruct Hin as [_ Hp].
        simpl in Hp. rewrite Href in Hp. simpl in Hp.
        now rewrite String.eqb_refl in Hp.
  - simpl. split; [auto |]. split; [discriminate | reflexivity].
Qed.

(** X20. The author of a visible document, and any admin, can update it
    through [PUT /api/documents/:id] with a well-formed body: the answer is
    200 with the updated document, whose version is one higher and which is
    what the store then holds under [id]. *)
Theorem put_document_allowed :
  forall rt rtV rtA user id data s r,
    getDocument s id = Some r ->
    user_id (dwd_createdBy r) = au_id user \/ au_role user = "admin" ->
    exists doc',
      fst (put_document rt rtV rtA user id (Some data) s)
      = json (Updated (Some doc'))
      /\ doc_version doc' = doc_version (dwd_document r) + 1
      /\ JsMap.get id
           (documents (snd (put_document rt rtV rtA user id (Some data) s)))
         = Some doc'.
Proof.
  intros rt rtV rtA user id data s r Hr Hmay. unfold put_document. rewrite Hr.
  assert (E : negb (String.eqb (user_id (dwd_createdBy r)) (au_id user))
              && negb (String.eqb (au_role user) "admin") = false).
  { destruct Hmay as [H | H]; apply String.eqb_eq in H; rewrite H;
      [reflexivity | apply andb_false_r]. }
  rewrite E. apply getDocument_Some in Hr. destruct Hr as [Hget _].
  unfold updateDocument. rewrite Hget. simpl.
  eexists. split; [reflexivity |]. split; [reflexivity |].
  apply JsMapFacts.get_set_eq.
Qed.

Lemma put_document_allowed_witness :
  exists doc',
    fst (put_document (at_time "-" 8) (at_time "v7" 8) (at_time "a7" 8)
           admin "d1" (Some no_changes) sample_two)
    = json (Updated (Some doc'))
    /\ doc_version doc' = 3.
Proof.
  destruct (getDocument sample_two "d1") as [r|] eqn:Hr; [| discriminate Hr].
  destruct (put_document_allowed (at_time "-" 8) (at_time "v7" 8)
              (at_time "a7" 8) admin "d1" no_changes sample_two r Hr
              (or_intror eq_refl)) as (doc' & Hres & Hv & _).
  exists doc'. split; [exact Hres |].
  rewrite Hv. injection Hr as <-. reflexivity.
Defined.

(** X21. A document created with a token whose user is not in the store is
    stored but out of reach: [POST /api/documents] answers 200, yet
    [getDocument] does not find the document, and [PUT] and [DELETE] answer
    404 for every caller, admins included, and change nothing. *)
Theorem post_document_unknown_author :
  forall rt rtV rtA user data s,
    getUser s (au_id user) = None ->
    let s' := snd (post_document rt rtV rtA user (Some data) s) in
    res_status (fst (post_document rt rtV rtA user (Some data) s)) = 200
    /\ JsMap.get (randomUUID rt) (documents s') <> None
    /\ getDocument s' (randomUUID rt) = None
    /\ (forall caller,
          delete_document caller (randomUUID rt) s'
          = (status_json 404 (Message "Document not found"), s'))
    /\ (forall rt' rtV' rtA' caller parsed,
          put_document rt' rtV' rtA' caller (randomUUID rt) parsed s'
          = (status_json 404 (Message "Document not found"), s')).
Proof.
  intros rt rtV rtA user data s Hnone. cbv zeta.
  set (s' := snd (post_document rt rtV rtA user (Some data) s)).
  assert (Hget : exists doc,
             JsMap.get (randomUUID rt) (documents s') = Some doc
             /\ doc_createdBy doc = au_id user).
  { eexists. split; [apply JsMapFacts.get_set_eq | reflexivity]. }
  destruct Hget as (doc & Hget & Hby).
  assert (Husers : users s' = users s) by reflexivity.
  assert (Hdoc : getDocument s' (randomUUID rt) = None).
  { unfold getDocument, getUser in *. now rewrite Hget, Hby, Husers, Hnone. }
  split; [reflexivity |]. split; [congruence |]. split; [exact Hdoc |].
  split.
  - intros caller. unfold delete_document. now rewrite Hdoc.
  - intros rt' rtV' rtA' caller parsed. unfold put_document. now rewrite Hdoc.
Qed.

Lemma post_document_unknown_author_witness :
  getUser sample_registered (au_id stranger) = None
  /\ getDocument
       (snd (post_document (at_time "d5" 4) (at_time "v5" 4) (at_time "a5" 4)
               stranger
               (Some {| ins_title := "Lost"; ins_content := "text";
                        ins_summary := Omitted; ins_tags := Omitted |})
               sample_registered)) "d5" = None.
Proof.
  split; [reflexivity |].
  exact (proj1 (proj2 (proj2
    (post_document_unknown_author (at_time "d5" 4) (at_time "v5" 4)
       (at_time "a5" 4) stranger
       {| ins_title := "Lost"; ins_content := "text";
          ins_summary := Omitted; ins_tags := Omitted |}
       sample_registered eq_refl)))).
Defined.

(** ** Accounts *)


Section RoutesFacts.
Variable hashPassword : string -> string.
Variable comparePassword : string -> string -> bool.
Variable generateToken : AuthUser -> string.


End RoutesFacts.



(** ** The bearer token *)

Lemma no_space_cons (c : ascii) (s : string) :
  no_space (String c s) -> c <> " "%char /\ no_space s.
Proof. unfold no_space. simpl. intuition. Qed.

Lemma split_on_word (w : string) :
  no_space w -> split_on " "%char w = [w].
Proof.
  induction w as [|c w IH]; intros Hw; [reflexivity |].
  apply no_space_cons in Hw. destruct Hw as [Hc Hw]. simpl.
  apply Ascii.eqb_neq in Hc. rewrite Hc, (IH Hw). reflexivity.
Qed.

Lemma split_on_words (w rest : string) :
  no_space w ->
  split_on " "%char (w ++ String " "%char rest)%string
  = w :: split_on " "%char rest.
Proof.
  induction w as [|c w IH]; intros Hw; [reflexivity |].
  apply no_space_cons in Hw. destruct Hw as [Hc Hw]. simpl.
  apply Ascii.eqb_neq in Hc. rewrite Hc, (IH Hw). reflexivity.
Qed.

Lemma split_on_nonempty (s : string) : split_on " "%char s <> [].
Proof.
  destruct s as [|c s]; simpl; [discriminate |].
  destruct (Ascii.eqb c " "%char); [discriminate |].
  destruct (split_on " "%char s); discriminate.
Qed.

(** X24. What [authenticateToken] takes for the token is the second
    space-separated word of the header and nothing else. A header without a
    space, or with two spaces after the first word, is answered 401; for
    [scheme token] or [scheme token more...] the outcome is that of
    [verifyToken token] (403 when it throws), whatever the first word is:
    the scheme is never compared with "Bearer". *)
Theorem authenticateToken_header :
  forall verifyToken scheme token more,
    no_space scheme ->
    no_space token ->
    token <> EmptyString ->
    authenticateToken verifyToken None
    = AuthReject 401 "Access token required"
    /\ authenticateToken verifyToken (Some scheme)
       = AuthReject 401 "Access token required"
    /\ authenticateToken verifyToken
         (Some (scheme ++ String " "%char (String " "%char more))%string)
       = AuthReject 401 "Access token required"
    /\ authenticateToken verifyToken (Some (scheme ++ String " "%char token)%string)
       = match verifyToken token with
         | Some user => AuthNext user
         | None => AuthReject 403 "Invalid or expired token"
         end
    /\ authenticateToken verifyToken
         (Some (scheme ++ String " "%char (token ++ String " "%char more))%string)
       = authenticateToken verifyToken (Some (scheme ++ String " "%char token)%string).
Proof.
  intros verifyToken scheme token more Hs Ht Hne.
  assert (Hnonempty : forall r,
            String.eqb (scheme ++ String " "%char r)%string EmptyString = false).
  { intros r. apply String.eqb_neq. destruct scheme; discriminate. }
  assert (Htok : String.eqb token EmptyString = false)
    by now apply String.eqb_neq.
  unfold authenticateToken, bearer_token.
  split; [reflexivity |].
  split.
  { destruct (String.eqb scheme EmptyString); [reflexivity |].
    now rewrite (split_on_word _ Hs). }
  split.
  { rewrite Hnonempty, (split_on_words _ _ Hs). reflexivity. }
  assert (Hplain : nth_error
            (split_on " "%char (scheme ++ String " "%char token)%string) 1
            = Some token).
  { rewrite (split_on_words _ _ Hs), (split_on_word _ Ht). reflexivity. }
  assert (Hmore : nth_error
            (split_on " "%char
               (scheme ++ String " "%char (token ++ String " "%char more))%string) 1
            = Some token).
  { rewrite (split_on_words _ _ Hs), (split_on_words _ _ Ht). reflexivity. }
  rewrite !Hnonempty, Hplain, Hmore, Htok. split; reflexivity.
Qed.

Lemma authenticateToken_header_witness :
  authenticateToken
    (fun t => if String.eqb t "abc" then Some owner else None)
    (Some "Basic abc") = AuthNext owner
  /\ authenticateToken
       (fun t => if String.eqb t "abc" then Some owner else None)
       (Some "Bearer  abc") = AuthReject 401 "Access token required".
Proof.
  assert (Hs : no_space "Basic") by (unfold no_space; simpl; intuition discriminate).
  assert (Hs' : no_space "Bearer") by (unfold no_space; simpl; intuition discriminate).
  assert (Ht : no_space "abc") by (unfold no_space; simpl; intuition discriminate).
  assert (Hne : "abc" <> EmptyString) by discriminate.
  split.
  - exact (proj1 (proj2 (proj2 (proj2
      (authenticateToken_header
         (fun t => if String.eqb t "abc" then Some owner else None)
         "Basic" "abc" EmptyString Hs Ht Hne))))).
  - exact (proj1 (proj2 (proj2
      (authenticateToken_header
         (fun t => if String.eqb t "abc" then Some owner else None)
         "Bearer" "abc" "abc" Hs' Ht Hne)))).
Defined.

(** * Properties of the semantic search *)

Lemma filter_filter_impl {A : Type} (f g : A -> bool) (l : list A) :
  (forall x, f x = true -> g x = true) ->
  filter f (filter g l) = filter f l.
Proof.
  intros Himp. induction l as [|x l IH]; simpl; [reflexivity |].
  destruct (g x) eqn:Eg; simpl.
  - now rewrite IH.
  - destruct (f x) eqn:Ef; [| exact IH].
    apply Himp in Ef. congruence.
Qed.

Lemma fallback_hit_search_hit (toLowerCase : string -> string)
  (lowerQuery : string) (x : DocumentWithUser) :
  fallback_hit toLowerCase lowerQuery x = true ->
  search_hit toLowerCase lowerQuery x = true.
Proof.
  unfold fallback_hit, search_hit. cbv zeta. intros H. now rewrite H.
Qed.

(** X25. When the model call fails, semantic search falls back on a literal
    search that looks at title, content and summary but not at the tags: on
    the documents of the store its result is the store's own literal search
    result, less the documents that match by a tag only, in the same order
    and without relevance. *)
Theorem performSemanticSearch_fallback :
  forall (toLowerCase : string -> string) s query,
    performSemanticSearch toLowerCase AiFailed query (getDocuments s)
    = map (fun doc => {| sr_document := Some doc; sr_relevance := None |})
        (filter (fallback_hit toLowerCase (toLowerCase query))
           (searchDocuments toLowerCase s query))
    /\ (forall x,
          In x (getDocuments s) ->
          fallback_hit toLowerCase (toLowerCase query) x = false ->
          search_hit toLowerCase (toLowerCase query) x = true ->
          In x (searchDocuments toLowerCase s query)
          /\ ~ In {| sr_document := Some x; sr_relevance := None |}
                 (performSemanticSearch toLowerCase AiFailed query
                    (getDocuments s))).
Proof.
  intros toLowerCase s query. split.
  - unfold performSemanticSearch, searchDocuments. cbv zeta.
    rewrite filter_filter_impl by apply fallback_hit_search_hit.
    reflexivity.
  - intros x Hin Hfb Hhit. split.
    + unfold searchDocuments. cbv zeta. apply filter_In. auto.
    + unfold performSemanticSearch. cbv zeta. intros H.
      apply in_map_iff in H. destruct H as [y [Hy Hiny]].
      injection Hy as ->. apply filter_In in Hiny. destruct Hiny as [_ Hy].
      congruence.
Qed.

Section SortBy.
Context {A : Type} (cmp : A -> A -> Z) (R : A -> A -> Prop).
Hypothesis cmp_le : forall x y, cmp x y <= 0 -> R x y.
Hypothesis cmp_gt : forall x y, 0 < cmp x y -> R y x.
Hypothesis R_trans : forall x y z, R x y -> R y z -> R x z.

Lemma sort_insert_sorted_by (x : A) (l : list A) :
  StronglySorted R l -> StronglySorted R (sort_insert cmp x l).
Proof.
  induction 1 as [|y l Hs IH Hall]; simpl.
  - repeat constructor.
  - destruct (cmp x y <=? 0) eqn:E.
    + apply Z.leb_le, cmp_le in E. constructor; [now constructor |].
      constructor; [exact E |].
      eapply Forall_impl; [| exact Hall]. intros z Hz. now apply (R_trans x y).
    + apply Z.leb_gt, cmp_gt in E. constructor; [assumption |].
      rewrite Forall_forall in *. intros z Hz.
      apply (Permutation_in _ (sort_insert_perm cmp x l)) in Hz.
      destruct Hz as [<- | Hz]; auto.
Qed.

Lemma sort_sorted_by (l : list A) : StronglySorted R (sort cmp l).
Proof.
  induction l as [|x l IH]; simpl; [constructor |].
  now apply sort_insert_sorted_by.
Qed.
End SortBy.

Lemma Qsign_minus (a b : Q) : Qsign (b - a) <= 0 <-> (b <= a)%Q.
Proof.
  unfold Qsign, Qle, Qminus, Qplus, Qopp. simpl.
  rewrite Z.sgn_nonpos. lia.
Qed.

(** X26. From a scored reply semantic search keeps exactly the entries with
    relevance above 30, each once, and returns them best first, every one
    with its relevance; neither the query nor the lower-casing plays a part,
    and an entry is returned also when its index names no document. *)
Theorem performSemanticSearch_scores :
  forall (toLowerCase : string -> string) results query documents,
    exists kept : list Score,
      performSemanticSearch toLowerCase (AiScores results) query documents
      = map (fun result =>
               {| sr_document := array_get documents (sc_index result);
                  sr_relevance := Some (sc_relevance result) |}) kept
      /\ Permutation kept
           (filter (fun result => negb (Qle_bool (sc_relevance result) 30))
              results)
      /\ (forall result, In result kept <->
            In result results /\ (30 < sc_relevance result)%Q)
      /\ StronglySorted
           (fun a b => (sc_relevance b <= sc_relevance a)%Q) kept.
Proof.
  intros toLowerCase results query documents.
  eexists. split; [reflexivity |].
  split; [apply sort_perm |].
  split.
  - intros r. rewrite sort_In, filter_In, negb_true_iff.
    rewrite <- not_true_iff_false, Qle_bool_iff.
    split; intros [Hin H]; (split; [exact Hin |]).
    + now apply Qnot_le_lt.
    + now apply Qlt_not_le.
  - apply sort_sorted_by.
    + intros x y H. now apply Qsign_minus.
    + intros x y H. apply Qlt_le_weak, Qnot_le_lt.
      intros Hle. apply Qsign_minus in Hle. lia.
    + intros x y z Hxy Hyz. now apply (Qle_trans _ (sc_relevance y)).
Qed.

Lemma Qred_inject_Z (z : Z) : Qred (inject_Z z) = inject_Z z.
Proof.
  unfold Qred, inject_Z. simpl Qnum. simpl Qden.
  pose proof (Z.ggcd_gcd z 1) as Hg.
  pose proof (Z.ggcd_correct_divisors z 1) as Hd.
  destruct (Z.ggcd z 1) as [g [aa bb]]. cbn [fst snd] in *.
  rewrite Z.gcd_1_r in Hg. destruct Hd as [Ha Hb].
  assert (Haa : aa = z) by lia. assert (Hbb : bb = 1) by lia.
  rewrite Haa, Hbb. reflexivity.
Qed.

Lemma array_get_index {A : Type} (l : list A) (q : Q) (i : nat) :
  q == inject_Z (Z.of_nat i) -> array_get l q = nth_error l i.
Proof.
  intros Hq. unfold array_get. cbv zeta.
  rewrite (Qred_complete _ _ Hq), Qred_inject_Z. simpl.
  assert (E : (0 <=? Z.of_nat i) = true) by (apply Z.leb_le; lia).
  now rewrite E, Nat2Z.id.
Qed.

Lemma array_get_negative {A : Type} (l : list A) (q : Q) :
  (q < 0)%Q -> array_get l q = None.
Proof.
  intros Hq. unfold array_get. cbv zeta.
  assert (Hr : (Qred q < 0)%Q) by now rewrite Qred_correct.
  unfold Qlt in Hr. simpl in Hr.
  assert (E : (0 <=? Qnum (Qred q)) = false) by (apply Z.leb_gt; lia).
  now rewrite E, andb_false_r.
Qed.

(** X27. Which document a scored entry brings along: with relevance above
    30 and index [i], a whole number, the returned entry carries
    [documents[i]], which is nothing when [i] is past the end of the array;
    with a negative index it carries no document fields at all. In each case
    the entry is returned. *)
Theorem performSemanticSearch_index :
  forall (toLowerCase : string -> string) results query documents result,
    In result results ->
    (30 < sc_relevance result)%Q ->
    (forall i : nat,
       sc_index result == inject_Z (Z.of_nat i) ->
       In {| sr_document := nth_error documents i;
             sr_relevance := Some (sc_relevance result) |}
          (performSemanticSearch toLowerCase (AiScores results) query
             documents))
    /\ ((sc_index result < 0)%Q ->
        In {| sr_document := None;
              sr_relevance := Some (sc_relevance result) |}
           (performSemanticSearch toLowerCase (AiScores results) query
              documents)).
Proof.
  intros toLowerCase results query documents result Hin Hrel.
  assert (Hkept : In result
            (sort (fun a b => Qsign (sc_relevance b - sc_relevance a))
               (filter (fun r => negb (Qle_bool (sc_relevance r) 30))
                  results))).
  { apply sort_In, filter_In. split; [exact Hin |].
    apply negb_true_iff, not_true_iff_false. rewrite Qle_bool_iff.
    now apply Qlt_not_le. }
  unfold performSemanticSearch. split.
  - intros i Hi. apply in_map_iff. exists result.
    split; [| exact Hkept]. now rewrite (array_get_index _ _ _ Hi).
  - intros Hneg. apply in_map_iff. exists result.
    split; [| exact Hkept]. now rewrite (array_get_negative _ _ Hneg).
Qed.

Lemma performSemanticSearch_index_witness :
  In {| sr_document := None; sr_relevance := Some 85%Q |}
     (performSemanticSearch ascii_toLowerCase
        (AiScores [ {| sc_index := 5%Q; sc_relevance := 85%Q |};
                    {| sc_index := 0%Q; sc_relevance := 12%Q |} ])
        "anything" (getDocuments sample_two)).
Proof.
  destruct (performSemanticSearch_index ascii_toLowerCase
              [ {| sc_index := 5%Q; sc_relevance := 85%Q |};
                {| sc_index := 0%Q; sc_relevance := 12%Q |} ]
              "anything" (getDocuments sample_two)
              {| sc_index := 5%Q; sc_relevance := 85%Q |}
              (or_introl eq_refl) eq_refl) as [H _].
  exact (H 5%nat (Qeq_refl _)).
Defined.

(** * Creating a document: reading it back and undoing it *)

Lemma unstored_has_no_rows (s : MemStorage) (id : string) :
  no_orphans s ->
  unused id (documents s) ->
  (forall v, In v (JsMap.values (documentVersions s)) ->
     String.eqb (ver_documentId v) id = false)
  /\ (forall a, In a (JsMap.values (activities s)) ->
        strict_eq (act_documentId a) id = false).
Proof.
  intros [Hv Ha] Hid. unfold unused in Hid. split.
  - intros v Hin. apply String.eqb_neq. intros E.
    apply (Hv v Hin). now rewrite E.
  - intros a Hin. destruct (act_documentId a) as [d|] eqn:Ed; [| reflexivity].
    simpl. apply String.eqb_neq. intros E. subst d.
    now apply (Ha a id Hin Ed).
Qed.

Lemma wf_snoc {V : Type} (m : JsMap.t V) (k : string) (v : V) :
  JsMap.wf m -> unused k m -> JsMap.wf (m ++ [(k, v)]).
Proof.
  intros Hwf Hk. rewrite <- (JsMapFacts.set_unused _ _ _ Hk).
  now apply JsMapFacts.wf_set.
Qed.

Lemma filter_snoc_out {V : Type} (p : V -> bool) (m : JsMap.t V)
  (k : string) (v : V) :
  (forall x, In x (JsMap.values m) -> p x = false) ->
  p v = true ->
  filter (fun e => negb (p (snd e))) (m ++ [(k, v)]) = m.
Proof.
  intros Hm Hv. rewrite filter_app. simpl. rewrite Hv. simpl.
  rewrite app_nil_r. apply filter_all. intros [k' x] Hin. simpl.
  rewrite (Hm x); [reflexivity |]. apply in_values_entry. eauto.
Qed.

(** X28. Creating a document and deleting it again restores the store: in
    any state reached by [createUser], [createDocument], [updateDocument]
    and [deleteDocument], for unused non-empty identifiers,
    [deleteDocument] of the document just created returns [true] and leaves
    exactly the store there was before the creation. *)
Theorem createDocument_then_delete :
  forall rt rtV rtA insertDocument createdBy s,
    reachable document_op s ->
    fresh (OpCreateDocument rt rtV rtA insertDocument createdBy) s ->
    randomUUID rt <> EmptyString ->
    deleteDocument (randomUUID rt)
      (snd (createDocument rt rtV rtA insertDocument createdBy s))
    = (true, s).
Proof.
  intros rt rtV rtA ins createdBy s Hreach (Hd & Hv & Ha) Hne.
  pose proof (wf_store_reachable _ _ Hreach) as (_ & _ & HwfV & HwfA).
  destruct (unstored_has_no_rows s (randomUUID rt)
              (no_orphans_run _ Hreach) Hd) as [Hrows Hacts].
  set (s1 := snd (createDocument rt rtV rtA ins createdBy s)).
  assert (H1 : exists doc row act,
             s1 = {| users := users s;
                     documents := documents s ++ [(randomUUID rt, doc)];
                     documentVersions :=
                       documentVersions s ++ [(randomUUID rtV, row)];
                     activities := activities s ++ [(randomUUID rtA, act)] |}
             /\ ver_documentId row = randomUUID rt
             /\ act_documentId act = Some (randomUUID rt)).
  { do 3 eexists. split; [| split].
    - unfold s1, createDocument, createActivity, createDocumentVersion.
      cbn [fst snd users documents documentVersions activities].
      rewrite (JsMapFacts.set_unused _ _ _ Hd),
        (JsMapFacts.set_unused _ _ _ Hv), (JsMapFacts.set_unused _ _ _ Ha).
      reflexivity.
    - reflexivity.
    - simpl. apply (or_null_nonempty _ Hne). }
  destruct H1 as (doc & row & act & -> & Hrow & Hact).
  assert (Hget : JsMap.get (randomUUID rt)
                   (documents s ++ [(randomUUID rt, doc)]) = Some doc).
  { rewrite <- (JsMapFacts.set_unused _ _ _ Hd).
    apply JsMapFacts.get_set_eq. }
  rewrite (deleteDocument_present _ _ doc) by exact Hget.
  cbn [users documents documentVersions activities].
  rewrite (JsMapFacts.delete_loop_wf _ _ (wf_snoc _ _ row HwfV Hv)).
  rewrite (JsMapFacts.delete_loop_wf _ _ (wf_snoc _ _ act HwfA Ha)).
  rewrite (filter_snoc_out
             (fun v => String.eqb (ver_documentId v) (randomUUID rt)))
    by (try exact Hrows; rewrite Hrow; apply String.eqb_refl).
  rewrite (filter_snoc_out
             (fun a => strict_eq (act_documentId a) (randomUUID rt)))
    by (try exact Hacts; rewrite Hact; simpl; apply String.eqb_refl).
  assert (Hdel : JsMap.delete (randomUUID rt)
                   (documents s ++ [(randomUUID rt, doc)]) = documents s).
  { unfold JsMap.delete. rewrite filter_app. simpl.
    rewrite String.eqb_refl. simpl. rewrite app_nil_r.
    apply (JsMapFacts.delete_unused _ _ Hd). }
  rewrite Hdel. destruct s. reflexivity.
Qed.

Lemma createDocument_then_delete_witness :
  reachable document_op sample_two
  /\ deleteDocument "d5"
       (snd (createDocument (at_time "d5" 9) (at_time "v5" 9) (at_time "a5" 9)
               {| ins_title := "Scratch"; ins_content := "text";
                  ins_summary := Omitted; ins_tags := Omitted |} "u1"
               sample_two))
     = (true, sample_two).
Proof.
  assert (Hreach : reachable document_op sample_two)
    by (unfold sample_two, sample_created, sample_registered; solve_reachable).
  split; [exact Hreach |].
  apply (createDocument_then_delete (at_time "d5" 9) (at_time "v5" 9)
           (at_time "a5" 9) _ "u1" sample_two Hreach).
  - repeat split.
  - discriminate.
Defined.

(** X29. Reading back a document just created: in any state reached by
    [createUser], [createDocument], [updateDocument] and [deleteDocument],
    if the author is a stored user then [getDocument] of the new identifier
    answers with the returned document, that author, and a version list of
    exactly one row, numbered 1 and described "Initial version". *)
Theorem createDocument_getDocument :
  forall rt rtV rtA insertDocument createdBy s author,
    reachable document_op s ->
    fresh (OpCreateDocument rt rtV rtA insertDocument createdBy) s ->
    getUser s createdBy = Some author ->
    exists row,
      getDocument (snd (createDocument rt rtV rtA insertDocument createdBy s))
        (randomUUID rt)
      = Some {| dwd_document :=
                  fst (createDocument rt rtV rtA insertDocument createdBy s);
                dwd_createdBy := author;
                dwd_versions := [row] |}
      /\ ver_version row = 1
      /\ ver_changeDescription row = Some "Initial version"
      /\ ver_createdBy row = createdBy.
Proof.
  intros rt rtV rtA ins createdBy s author Hreach (Hd & Hv & _) Hauthor.
  destruct (unstored_has_no_rows s (randomUUID rt)
              (no_orphans_run _ Hreach) Hd) as [Hrows _].
  set (r := createDocument rt rtV rtA ins createdBy s).
  assert (Hget : JsMap.get (randomUUID rt) (documents (snd r)) = Some (fst r))
    by apply JsMapFacts.get_set_eq.
  assert (Hrow : exists row,
             documentVersions (snd r)
             = documentVersions s ++ [(randomUUID rtV, row)]
             /\ ver_documentId row = randomUUID rt
             /\ ver_version row = 1
             /\ ver_changeDescription row = Some "Initial version"
             /\ ver_createdBy row = createdBy).
  { eexists. split.
    - unfold r. simpl. apply (JsMapFacts.set_unused _ _ _ Hv).
    - repeat split. }
  destruct Hrow as (row & Hrows' & Hrid & Hrv & Hdesc & Hby).
  exists row. split; [| auto].
  unfold getDocument. rewrite Hget.
  assert (Hu : getUser (snd r) (doc_createdBy (fst r)) = Some author)
    by exact Hauthor.
  rewrite Hu. rewrite getDocumentVersions_rows.
  rewrite (version_rows_snoc s (snd r) _ row _ Hrows'), Hrid, String.eqb_refl.
  unfold version_rows. rewrite (filter_none _ _ Hrows). reflexivity.
Qed.

Lemma createDocument_getDocument_witness :
  reachable document_op sample_registered
  /\ option_map (fun r => List.length (dwd_versions r))
       (getDocument
          (snd (createDocument (at_time "d1" 2) (at_time "v1" 2)
                  (at_time "a1" 2)
                  {| ins_title := "Onboarding"; ins_content := "Welcome...";
                     ins_summary := Omitted; ins_tags := Omitted |} "u1"
                  sample_registered)) "d1") = Some 1%nat.
Proof.
  assert (Hreach : reachable document_op sample_registered)
    by (unfold sample_registered; solve_reachable).
  split; [exact Hreach |].
  destruct (JsMap.get "u1" (users sample_registered)) as [author|] eqn:E;
    [| discriminate E].
  destruct (createDocument_getDocument (at_time "d1" 2) (at_time "v1" 2)
              (at_time "a1" 2)
              {| ins_title := "Onboarding"; ins_content := "Welcome...";
                 ins_summary := Omitted; ins_tags := Omitted |} "u1"
              sample_registered author Hreach
              (conj eq_refl (conj eq_refl eq_refl)) E) as (row & Hdoc & _).
  simpl randomUUID in Hdoc. rewrite Hdoc. reflexivity.
Defined.
